(** * Meeple-Meet: the DNS-response rewriter [bro.py]

    A shallow embedding of [convert_sciper_to_ip] and [modify_pcap]
    (app/src/androidTest/java/com/github/meeplemeet/ui/bro.py) and the
    properties of the rewriter stated over it.

    Python values are modelled as follows: [str] as [string], [int] as [Z],
    a list as [list] indexed with stdpp's lookup and insert, a field that
    was deleted from a scapy header ([del packet[IP].len]) as [None], and a
    raised exception as the [Raise] branch of [result]. *)

From Stdlib Require Import ZArith String Ascii List Lia Bool.
From stdpp Require Import base list strings gmap.

Local Open Scope string_scope.
Local Open Scope Z_scope.
Local Open Scope list_scope.

(** ** Exceptions *)

(** The exceptions a run can end with: [IndexError] comes from [section[i]]
    in [fix_section]; the other two are what the capture library raises. *)
Inductive exn : Type :=
| IndexError
| OSError (msg : string)
| Scapy_Exception (msg : string).

Inductive result (A : Type) : Type :=
| Ok (a : A)
| Raise (e : exn).
Arguments Ok {A} a.
Arguments Raise {A} e.

Definition bind {A B : Type} (c : result A) (k : A -> result B) : result B :=
  match c with
  | Ok a => k a
  | Raise e => Raise e
  end.

Notation "'let*' p ':=' c 'in' k" :=
  (bind c (fun x => match x with p => k end))
  (at level 10, p pattern, c at level 200, k at level 200).

(** ** The address derivation *)

(** [range(start, stop, step)] for a positive [step]. *)
Definition range3 (start stop step : nat) : list nat :=
  map (fun k => (start + k * step)%nat)
      (seq 0 ((stop - start + (step - 1)) / step)).

(** [range(count)]: empty when [count <= 0]. *)
Definition range (count : Z) : list nat := seq 0 (Z.to_nat count).

(** [s[i:j]] for [0 <= i <= j]: the slice is cut at the end of [s]. *)
Definition slice (s : string) (i j : nat) : string := substring i (j - i) s.

Definition convert_sciper_to_ip (sciper : string) : string :=
  let n := 2%nat in
  let split_sciper :=
    map (fun i => slice sciper i (i + n))
        (range3 0 (String.length sciper) n) in
  "00." +:+ String.concat "." split_sciper.

Definition SCIPER : string := "377690".

(** The derivation in the words of the specification: consecutive chunks of
    two characters, a last chunk of one character when the length is odd,
    joined with a dot after the literal [00.]. *)
Fixpoint chunk_pairs (s : string) : list string :=
  match s with
  | EmptyString => []
  | String a EmptyString => [String a EmptyString]
  | String a (String b rest) => String a (String b EmptyString) :: chunk_pairs rest
  end.

Definition derive_address (identifier : string) : string :=
  "00." +:+ String.concat "." (chunk_pairs identifier).

(** ** Packets *)

(** A DNS question. *)
Record DNSQR : Type := mkDNSQR {
  qname : string;
  qtype : Z;
  qclass : Z
}.

(** A DNS resource record; [type] 1 is an A record. *)
Record DNSRR : Type := mkDNSRR {
  rrname : string;
  type : Z;
  rclass : Z;
  rr_ttl : Z;
  rdlen : option Z;
  rdata : string
}.

Definition set_rdata (v : string) (rr : DNSRR) : DNSRR :=
  mkDNSRR (rrname rr) (type rr) (rclass rr) (rr_ttl rr) (rdlen rr) v.

(** The DNS layer: header fields, the declared counts, and the four record
    sequences.  A count and the length of its sequence are independent.
    The sequences hold the records that the library parsed; an element
    that it kept as raw bytes, which has no [type], is not modelled. *)
Record DNS : Type := mkDNS {
  dns_id : Z;
  qr : Z;
  opcode : Z;
  dns_flags : Z;
  rcode : Z;
  qdcount : Z;
  ancount : Z;
  nscount : Z;
  arcount : Z;
  qd : list DNSQR;
  an : list DNSRR;
  ns : list DNSRR;
  ar : list DNSRR
}.

Definition set_sections (an' ns' ar' : list DNSRR) (d : DNS) : DNS :=
  mkDNS (dns_id d) (qr d) (opcode d) (dns_flags d) (rcode d)
        (qdcount d) (ancount d) (nscount d) (arcount d) (qd d) an' ns' ar'.

(** The IP header; [ip_len] and [ip_chksum] are [None] once deleted, which
    is how the library is told to compute them when the packet is built. *)
Record IP : Type := mkIP {
  ip_tos : Z;
  ip_len : option Z;
  ip_id : Z;
  ip_frag : Z;
  ip_ttl : Z;
  ip_proto : Z;
  ip_chksum : option Z;
  ip_src : string;
  ip_dst : string
}.

Definition del_ip_len_chksum (h : IP) : IP :=
  mkIP (ip_tos h) None (ip_id h) (ip_frag h) (ip_ttl h) (ip_proto h) None
       (ip_src h) (ip_dst h).

Record UDP : Type := mkUDP {
  sport : Z;
  dport : Z;
  udp_len : option Z;
  udp_chksum : option Z
}.

Definition del_udp_len_chksum (u : UDP) : UDP :=
  mkUDP (sport u) (dport u) None None.

(** A packet is a chain of layers, outermost first. *)
Inductive Layer : Type :=
| L_IP (h : IP)
| L_UDP (u : UDP)
| L_DNS (d : DNS)
| L_Other (name : string) (load : list Z).

Record Packet : Type := mkPacket {
  time : Z;
  layers : list Layer
}.

Definition set_time (t : Z) (p : Packet) : Packet := mkPacket t (layers p).
Definition set_layers (ls : list Layer) (p : Packet) : Packet := mkPacket (time p) ls.

(** The layer classes the script asks for. *)
Definition as_IP (l : Layer) : option IP :=
  match l with L_IP h => Some h | _ => None end.
Definition as_UDP (l : Layer) : option UDP :=
  match l with L_UDP u => Some u | _ => None end.
Definition as_DNS (l : Layer) : option DNS :=
  match l with L_DNS d => Some d | _ => None end.

(** [packet[cls]]: the first layer of the class, if any. *)
Fixpoint getlayer {A : Type} (cls : Layer -> option A) (ls : list Layer) : option A :=
  match ls with
  | [] => None
  | l :: ls' =>
      match cls l with
      | Some a => Some a
      | None => getlayer cls ls'
      end
  end.

Definition haslayer {A : Type} (cls : Layer -> option A) (p : Packet) : bool :=
  match getlayer cls (layers p) with
  | Some _ => true
  | None => false
  end.

(** A write through [packet[cls]]: the first layer of the class becomes
    [inj (f a)]; a chain without the class is left as it is. *)
Fixpoint updlayer {A : Type} (cls : Layer -> option A) (inj : A -> Layer)
    (f : A -> A) (ls : list Layer) : list Layer :=
  match ls with
  | [] => []
  | l :: ls' =>
      match cls l with
      | Some a => inj (f a) :: ls'
      | None => l :: updlayer cls inj f ls'
      end
  end.

(** ** The record rewriter *)

(** The loop of [fix_section] over the indices of [range(count)].  The
    section is updated in place and [modified] is the flag of the enclosing
    scope; [section[i]] raises [IndexError] past the end of the list. *)
Fixpoint fix_section_loop (new_ip : string) (idx : list nat)
    (section : list DNSRR) (modified : bool) : result (list DNSRR * bool) :=
  match idx with
  | [] => Ok (section, modified)
  | i :: idx' =>
      match section !! i with
      | None => Raise IndexError
      | Some rr =>
          if type rr =? 1
          then fix_section_loop new_ip idx' (<[i := set_rdata new_ip rr]> section) true
          else fix_section_loop new_ip idx' section modified
      end
  end.

Definition fix_section (new_ip : string) (section : list DNSRR) (count : Z)
    (modified : bool) : result (list DNSRR * bool) :=
  fix_section_loop new_ip (range count) section modified.

(** The three calls of [fix_section] on the DNS layer. *)
Definition fix_sections (new_ip : string) (dns : DNS) : result (DNS * bool) :=
  let modified := false in
  let* (an', modified) := fix_section new_ip (an dns) (ancount dns) modified in
  let* (ns', modified) := fix_section new_ip (ns dns) (nscount dns) modified in
  let* (ar', modified) := fix_section new_ip (ar dns) (arcount dns) modified in
  Ok (set_sections an' ns' ar' dns, modified).

(** The test of line 18: a DNS layer whose [qr] is 1. *)
Definition is_dns_response (packet : Packet) : bool :=
  match getlayer as_DNS (layers packet) with
  | Some dns => qr dns =? 1
  | None => false
  end.

(** The deletions of lines 42 to 47. *)
Definition del_len_chksum (packet : Packet) : Packet :=
  let packet :=
    if haslayer as_IP packet
    then set_layers (updlayer as_IP L_IP del_ip_len_chksum (layers packet)) packet
    else packet in
  if haslayer as_UDP packet
  then set_layers (updlayer as_UDP L_UDP del_udp_len_chksum (layers packet)) packet
  else packet.

(** The body of the [for] loop of [modify_pcap]: the packet that is
    appended to [new_pkts], with [true] when it went through lines 42 to
    50 and [false] when it was appended by one of the two [continue]
    branches.  [packet[DNS]] raises [IndexError] on a packet without DNS
    layer, which the test of line 18 has excluded.  The sections are
    changed in place, so the packet of the second [continue] carries what
    the three loops left in them. *)
Definition process_packet (new_ip : string) (packet : Packet) : result (Packet * bool) :=
  if negb (is_dns_response packet) then Ok (packet, false)
  else
    let original_time := time packet in
    match getlayer as_DNS (layers packet) with
    | None => Raise IndexError
    | Some dns =>
        let* (dns', modified) := fix_sections new_ip dns in
        let packet := set_layers (updlayer as_DNS L_DNS (fun _ => dns') (layers packet)) packet in
        if negb modified then Ok (packet, false)
        else
          let packet := del_len_chksum packet in
          let packet := set_time original_time packet in
          Ok (packet, true)
    end.

(** The [for] loop: [new_pkts] grows by one packet per iteration. *)
Fixpoint modify_loop (new_ip : string) (pkts new_pkts : list Packet) : result (list Packet) :=
  match pkts with
  | [] => Ok new_pkts
  | packet :: pkts' =>
      let* (packet', _) := process_packet new_ip packet in
      modify_loop new_ip pkts' (new_pkts ++ [packet'])
  end.

(** [modify_pcap] between [rdpcap] and [wrpcap]. *)
Definition modify_pkts (pkts : list Packet) : result (list Packet) :=
  let new_pkts := [] in
  let new_ip := convert_sciper_to_ip SCIPER in
  modify_loop new_ip pkts new_pkts.

(** ** Capture files *)

Section CaptureIO.

(** The file system and the two library calls on it.  [rdpcap] only
    reads; [wrpcap] either gives the file system with the output file
    written or raises and leaves it as it was. *)
Variable World : Type.
Variable rdpcap : string -> World -> result (list Packet).
Variable wrpcap : string -> list Packet -> World -> result World.

(** The file system after the call and how the call ended. *)
Definition modify_pcap (input_pcap_file output_pcap_file : string) (w : World)
    : World * result unit :=
  match rdpcap input_pcap_file w with
  | Raise e => (w, Raise e)
  | Ok pkts =>
      match modify_pkts pkts with
      | Raise e => (w, Raise e)
      | Ok new_pkts =>
          match wrpcap output_pcap_file new_pkts w with
          | Raise e => (w, Raise e)
          | Ok w' => (w', Ok tt)
          end
      end
  end.

End CaptureIO.

(** ** Definitions used in the statements *)

Definition is_A (rr : DNSRR) : bool := type rr =? 1.

(** What one record becomes when the loop visits it. *)
Definition rewrite_rr (new_ip : string) (rr : DNSRR) : DNSRR :=
  if is_A rr then set_rdata new_ip rr else rr.

(** What a section becomes when its first [count] records are visited. *)
Definition rewritten (new_ip : string) (count : Z) (section : list DNSRR) : list DNSRR :=
  map (rewrite_rr new_ip) (take (Z.to_nat count) section)
  ++ drop (Z.to_nat count) section.

(** An A record among the first [count] records. *)
Definition has_A (count : Z) (section : list DNSRR) : bool :=
  existsb is_A (take (Z.to_nat count) section).

(** The declared count does not exceed the number of records. *)
Definition in_range (count : Z) (section : list DNSRR) : bool :=
  count <=? Z.of_nat (length section).

(** The three sections together. *)
Definition dns_in_range (dns : DNS) : bool :=
  in_range (ancount dns) (an dns) && in_range (nscount dns) (ns dns)
  && in_range (arcount dns) (ar dns).

Definition dns_has_A (dns : DNS) : bool :=
  has_A (ancount dns) (an dns) || has_A (nscount dns) (ns dns)
  || has_A (arcount dns) (ar dns).

Definition dns_rewritten (new_ip : string) (dns : DNS) : DNS :=
  set_sections (rewritten new_ip (ancount dns) (an dns))
               (rewritten new_ip (nscount dns) (ns dns))
               (rewritten new_ip (arcount dns) (ar dns)) dns.

(** The layers once both headers lost their length and checksum. *)
Definition del_layers (ls : list Layer) : list Layer :=
  updlayer as_UDP L_UDP del_udp_len_chksum
    (updlayer as_IP L_IP del_ip_len_chksum ls).

(** The packet appended by lines 42 to 50. *)
Definition modified_packet (new_ip : string) (p : Packet) : Packet :=
  mkPacket (time p)
    (del_layers (updlayer as_DNS L_DNS (dns_rewritten new_ip) (layers p))).

(** [q] is what the loop body appends for [p]. *)
Definition processed (new_ip : string) (p q : Packet) : Prop :=
  exists m, process_packet new_ip p = Ok (q, m).

(** A packet on which no [section[i]] can be out of range. *)
Definition packet_in_range (p : Packet) : bool :=
  match getlayer as_DNS (layers p) with
  | Some dns => if qr dns =? 1 then dns_in_range dns else true
  | None => true
  end.

(** An A record at an index below the declared count. *)
Definition A_within (count : Z) (section : list DNSRR) : Prop :=
  exists i rr, section !! i = Some rr /\ Z.of_nat i < count /\ type rr = 1.

(** An A record anywhere in the three sections, whatever the counts say. *)
Definition contains_A (dns : DNS) : Prop :=
  exists rr, rr ∈ an dns ++ ns dns ++ ar dns /\ type rr = 1.

(** No A record is left with another address than [new_ip]. *)
Definition all_A_have (new_ip : string) (dns : DNS) : Prop :=
  forall rr, rr ∈ an dns ++ ns dns ++ ar dns -> type rr = 1 -> rdata rr = new_ip.

(** Record [i] of a section with declared count [count], after the loop. *)
Definition visit (new_ip : string) (count : Z) (i : nat) (rr : DNSRR) : DNSRR :=
  if (Z.of_nat i <? count) && (type rr =? 1) then set_rdata new_ip rr else rr.

(** A section after the loop: a record is overwritten exactly when it is an
    A record at an index below the declared count. *)
Definition section_rewritten (new_ip : string) (count : Z) (sec sec' : list DNSRR) : Prop :=
  length sec' = length sec /\
  forall i rr, sec !! i = Some rr ->
    exists rr', sec' !! i = Some rr' /\
      (Z.of_nat i < count -> type rr = 1 -> rr' = set_rdata new_ip rr) /\
      (count <= Z.of_nat i \/ type rr <> 1 -> rr' = rr).

(** No section holds more records than it declares.  This is so of the
    packets that [rdpcap] returns, a section being dissected record by
    record up to its declared count. *)
Definition no_more_than_declared (dns : DNS) : Prop :=
  Z.of_nat (length (an dns)) <= ancount dns /\
  Z.of_nat (length (ns dns)) <= nscount dns /\
  Z.of_nat (length (ar dns)) <= arcount dns.

(** A section after the loop when every A record was overwritten and no
    other record was touched. *)
Definition section_all_rewritten (new_ip : string) (sec sec' : list DNSRR) : Prop :=
  length sec' = length sec /\
  forall i rr, sec !! i = Some rr ->
    exists rr', sec' !! i = Some rr' /\
      (type rr = 1 -> rr' = set_rdata new_ip rr) /\
      (type rr <> 1 -> rr' = rr).

(** No A record in the DNS layer of the packet. *)
Definition no_A_records (p : Packet) : Prop :=
  forall dns, getlayer as_DNS (layers p) = Some dns -> ~ contains_A dns.

(** *** What a modified packet may differ in *)

Definition rr_frame (new_ip : string) (count : Z) (i : nat) (rr rr' : DNSRR) : Prop :=
  rr' = rr \/ (Z.of_nat i < count /\ type rr = 1 /\ rr' = set_rdata new_ip rr).

Definition section_frame (new_ip : string) (count : Z) (sec sec' : list DNSRR) : Prop :=
  length sec' = length sec /\
  forall i rr rr', sec !! i = Some rr -> sec' !! i = Some rr' ->
                   rr_frame new_ip count i rr rr'.

Definition dns_frame (new_ip : string) (d d' : DNS) : Prop :=
  dns_id d' = dns_id d /\ qr d' = qr d /\ opcode d' = opcode d /\
  dns_flags d' = dns_flags d /\ rcode d' = rcode d /\
  qdcount d' = qdcount d /\ ancount d' = ancount d /\
  nscount d' = nscount d /\ arcount d' = arcount d /\ qd d' = qd d /\
  section_frame new_ip (ancount d) (an d) (an d') /\
  section_frame new_ip (nscount d) (ns d) (ns d') /\
  section_frame new_ip (arcount d) (ar d) (ar d').

Definition ip_frame (h h' : IP) : Prop := h' = h \/ h' = del_ip_len_chksum h.

Definition udp_frame (u u' : UDP) : Prop := u' = u \/ u' = del_udp_len_chksum u.

Definition layer_frame (new_ip : string) (l l' : Layer) : Prop :=
  match l, l' with
  | L_IP h, L_IP h' => ip_frame h h'
  | L_UDP u, L_UDP u' => udp_frame u u'
  | L_DNS d, L_DNS d' => dns_frame new_ip d d'
  | L_Other name load, L_Other name' load' => name' = name /\ load' = load
  | _, _ => False
  end.

Definition packet_frame (new_ip : string) (p p' : Packet) : Prop :=
  time p' = time p /\ Forall2 (layer_frame new_ip) (layers p) (layers p').

(** *** A file system for the examples *)

(** What a path holds: a capture, or bytes that are not one. *)
Inductive FileData : Type :=
| Capture (pkts : list Packet)
| NotCapture (bytes : list Z).

(** [rdpcap] on a map from paths to contents: a missing path is a
    file-access error, a file that is not a capture a parse error. *)
Definition rdpcap_fs (path : string) (fs : gmap string FileData) : result (list Packet) :=
  match fs !! path with
  | None => Raise (OSError path)
  | Some (NotCapture _) => Raise (Scapy_Exception path)
  | Some (Capture pkts) => Ok pkts
  end.

(** [wrpcap] on the same map; the empty path cannot be written. *)
Definition wrpcap_fs (path : string) (pkts : list Packet) (fs : gmap string FileData)
    : result (gmap string FileData) :=
  if String.eqb path "" then Raise (OSError path)
  else Ok (<[path := Capture pkts]> fs).

(** *** Sample packets *)

Definition rr_A : DNSRR := mkDNSRR "example.com." 1 1 300 (Some 4) "93.184.216.34".
Definition rr_CNAME : DNSRR := mkDNSRR "www.example.com." 5 1 300 (Some 13) "example.com.".
Definition rr_NS : DNSRR := mkDNSRR "example.com." 2 1 300 (Some 6) "ns1.example.com.".

Definition hdr_ip : IP := mkIP 0 (Some 84) 4242 0 64 17 (Some 46811) "8.8.8.8" "10.0.0.2".
Definition hdr_udp : UDP := mkUDP 53 40000 (Some 64) (Some 9001).
Definition ether : Layer := L_Other "Ether" [0; 17; 34; 51; 68; 85].

Definition dns_of (qr_ ancount_ nscount_ arcount_ : Z) (an_ ns_ ar_ : list DNSRR) : DNS :=
  mkDNS 7 qr_ 0 0 0 1 ancount_ nscount_ arcount_
        [mkDNSQR "www.example.com." 1 1] an_ ns_ ar_.

Definition pkt_of (t : Z) (dns : DNS) : Packet :=
  mkPacket t [ether; L_IP hdr_ip; L_UDP hdr_udp; L_DNS dns].

(** A response with a CNAME and an A record, a name server, and an A
    record in the additional section. *)
Definition dns_answer : DNS := dns_of 1 2 1 1 [rr_CNAME; rr_A] [rr_NS] [rr_A].
Definition pkt_answer : Packet := pkt_of 1000 dns_answer.

(** The query that it answers, a response without A record, and a packet
    without DNS layer. *)
Definition pkt_query : Packet := pkt_of 999 (dns_of 0 0 0 0 [] [] []).
Definition pkt_cname : Packet := pkt_of 1001 (dns_of 1 1 0 0 [rr_CNAME] [] []).
Definition pkt_plain : Packet := mkPacket 1002 [ether; L_IP hdr_ip; L_Other "TCP" [1; 2; 3]].

(** A response with a single A record. *)
Definition pkt_single : Packet := pkt_of 1006 (dns_of 1 1 0 0 [rr_A] [] []).

(** Responses built in memory whose A record lies past the declared count
    of its section; no capture is read as such a packet. *)
Definition pkt_late_answer : Packet := pkt_of 1003 (dns_of 1 0 0 0 [rr_A] [] []).
Definition pkt_late_additional : Packet := pkt_of 1004 (dns_of 1 1 0 0 [rr_CNAME] [] [rr_A]).

(** A response that declares two answers and carries one. *)
Definition pkt_short : Packet := pkt_of 1005 (dns_of 1 2 0 0 [rr_CNAME] [] []).

(** *** Reading an address back *)

(** The characters of a dotted string of two-character groups: every third
    character is dropped. *)
Fixpoint drop_thirds (s : string) : string :=
  match s with
  | String a (String b (String _ rest)) => String a (String b (drop_thirds rest))
  | _ => s
  end.

(** The number of occurrences of a character. *)
Fixpoint count_char (c : ascii) (s : string) : nat :=
  match s with
  | EmptyString => 0
  | String a rest => ((if Ascii.eqb a c then 1 else 0) + count_char c rest)%nat
  end.

(** *** Packets on which no index is out of range *)

(** Every DNS response among the layers declares, in each section, at most
    as many records as the section holds. *)
Definition counts_in_range (p : Packet) : Prop :=
  forall dns, getlayer as_DNS (layers p) = Some dns -> qr dns = 1 ->
    ancount dns <= Z.of_nat (length (an dns)) /\
    nscount dns <= Z.of_nat (length (ns dns)) /\
    arcount dns <= Z.of_nat (length (ar dns)).


(** * Properties *)

(** ** The address derivation *)

Lemma string_pair_ind (P : string -> Prop) :
  P EmptyString ->
  (forall a, P (String a EmptyString)) ->
  (forall a b s, P s -> P (String a (String b s))) ->
  forall s, P s.
Proof.
  intros H0 H1 H2 s.
  enough (P s /\ forall a, P (String a s)) by tauto.
  induction s as [|c s [IHs IHc]]; split; auto.
Qed.

Lemma range3_step (n : nat) :
  range3 0 (S (S n)) 2 = 0%nat :: map (fun i => (2 + i)%nat) (range3 0 n 2).
Proof.
  unfold range3.
  replace (S (S n) - 0 + (2 - 1))%nat with ((n - 0 + (2 - 1)) + 1 * 2)%nat by lia.
  rewrite Nat.div_add by lia.
  rewrite Nat.add_1_r. cbn [seq map].
  f_equal. rewrite <- seq_shift, !map_map.
  apply map_ext; intros k; lia.
Qed.

Lemma split_sciper_chunks (s : string) :
  map (fun i => slice s i (i + 2)) (range3 0 (String.length s) 2) = chunk_pairs s.
Proof.
  induction s as [| a | a b s IH] using string_pair_ind; [reflexivity..|].
  cbn [String.length]. rewrite range3_step. cbn [map chunk_pairs].
  f_equal; [cbn; now destruct s|]. rewrite List.map_map, <- IH.
  apply map_ext; intros i. unfold slice.
  replace (2 + i + 2 - (2 + i))%nat with 2%nat by lia.
  replace (i + 2 - i)%nat with 2%nat by lia.
  reflexivity.
Qed.

Lemma convert_sciper_to_ip_derive (s : string) :
  convert_sciper_to_ip s = derive_address s.
Proof.
  unfold convert_sciper_to_ip, derive_address.
  now rewrite split_sciper_chunks.
Qed.

Lemma chunk_pairs_concat (s : string) : String.concat "" (chunk_pairs s) = s.
Proof.
  induction s as [| a | a b s IH] using string_pair_ind; [reflexivity..|].
  cbn [chunk_pairs]. destruct (chunk_pairs s) as [|c cs] eqn:E.
  - cbn in *. now subst.
  - cbn [String.concat] in *. cbn. now rewrite IH.
Qed.

Lemma chunk_pairs_length (s : string) :
  length (chunk_pairs s) = ((String.length s + 1) / 2)%nat.
Proof.
  induction s as [| a | a b s IH] using string_pair_ind; [reflexivity..|].
  cbn [chunk_pairs length String.length]. rewrite IH.
  replace (S (S (String.length s)) + 1)%nat
    with ((String.length s + 1) + 1 * 2)%nat by lia.
  rewrite Nat.div_add by lia. lia.
Qed.

Lemma substring_0_0 (s : string) : substring 0 0 s = EmptyString.
Proof. now destruct s. Qed.

Lemma chunk_pairs_lookup (s : string) (i : nat) (c : string) :
  chunk_pairs s !! i = Some c ->
  c = substring (2 * i) 2 s /\
  String.length c = Nat.min 2 (String.length s - 2 * i).
Proof.
  revert i c. induction s as [| a | a b s IH] using string_pair_ind; intros i c.
  - destruct i; discriminate.
  - destruct i as [|[|i]]; cbn; try discriminate.
    intros [= <-]. split; reflexivity.
  - destruct i as [|i]; cbn [chunk_pairs].
    + intros [= <-]. split; [cbn; now rewrite substring_0_0 | reflexivity].
    + intros H. apply IH in H as [H1 H2]. split.
      * rewrite H1. replace (2 * S i)%nat with (S (S (2 * i))) by lia. reflexivity.
      * rewrite H2. cbn [String.length]. f_equal. lia.
Qed.

(** ** Layers *)

Section LayerClass.

Context {A : Type} (cls : Layer -> option A) (inj : A -> Layer).
Hypothesis inj_cls : forall l a, cls l = Some a -> inj a = l.
Hypothesis cls_inj : forall a, cls (inj a) = Some a.

Lemma getlayer_updlayer (f : A -> A) (ls : list Layer) :
  getlayer cls (updlayer cls inj f ls) = option_map f (getlayer cls ls).
Proof.
  induction ls as [|l ls IH]; [reflexivity|].
  cbn. destruct (cls l) as [a|] eqn:E; cbn.
  - now rewrite cls_inj.
  - now rewrite E.
Qed.

Lemma updlayer_same (f : A -> A) (ls : list Layer) (a : A) :
  getlayer cls ls = Some a -> f a = a -> updlayer cls inj f ls = ls.
Proof.
  induction ls as [|l ls IH]; [reflexivity|].
  cbn. destruct (cls l) as [a'|] eqn:E.
  - intros [= ->] ->. f_equal. now apply inj_cls.
  - intros H1 H2. f_equal. now apply IH.
Qed.

Lemma updlayer_updlayer (f g : A -> A) (ls : list Layer) :
  updlayer cls inj g (updlayer cls inj f ls)
  = updlayer cls inj (fun a => g (f a)) ls.
Proof.
  induction ls as [|l ls IH]; [reflexivity|].
  cbn. destruct (cls l) as [a|] eqn:E; cbn.
  - now rewrite cls_inj.
  - now rewrite E, IH.
Qed.


(** A class that never holds of this one's layers does not see the
    update. *)
Lemma getlayer_updlayer_other {B : Type} (cls' : Layer -> option B)
    (f : A -> A) (ls : list Layer) :
  (forall l a, cls l = Some a -> cls' l = None) ->
  (forall a, cls' (inj a) = None) ->
  getlayer cls' (updlayer cls inj f ls) = getlayer cls' ls.
Proof.
  intros H1 H2. induction ls as [|l ls IH]; [reflexivity|].
  cbn. destruct (cls l) as [a|] eqn:E; cbn.
  - now rewrite H2, (H1 _ _ E).
  - now rewrite IH.
Qed.

End LayerClass.

Lemma L_IP_as_IP (l : Layer) (h : IP) : as_IP l = Some h -> L_IP h = l.
Proof. destruct l; cbn; congruence. Qed.

Lemma L_UDP_as_UDP (l : Layer) (u : UDP) : as_UDP l = Some u -> L_UDP u = l.
Proof. destruct l; cbn; congruence. Qed.

Lemma L_DNS_as_DNS (l : Layer) (d : DNS) : as_DNS l = Some d -> L_DNS d = l.
Proof. destruct l; cbn; congruence. Qed.

(** ** The record rewriter *)

Lemma fix_section_loop_ok (new_ip : string) (n : nat) :
  forall (pre post : list DNSRR) (m : bool),
    (n <= length post)%nat ->
    fix_section_loop new_ip (seq (length pre) n) (pre ++ post) m
    = Ok (pre ++ map (rewrite_rr new_ip) (take n post) ++ drop n post,
          m || existsb is_A (take n post)).
Proof.
  induction n as [|n IH]; intros pre post m Hn.
  - cbn. now rewrite orb_false_r.
  - destruct post as [|rr post]; [cbn in Hn; lia|].
    cbn [seq fix_section_loop].
    rewrite list_lookup_middle by reflexivity.
    cbn [take drop map existsb]. unfold rewrite_rr at 1.
    change (type rr =? 1) with (is_A rr).
    assert (Hpost : (n <= length post)%nat) by (cbn in Hn; lia).
    destruct (is_A rr) eqn:E.
    + rewrite insert_app_r_alt, Nat.sub_diag by lia. cbn [insert list_insert].
      replace (S (length pre)) with (length (pre ++ [set_rdata new_ip rr]))
        by (rewrite length_app; cbn; lia).
      rewrite (cons_middle _ pre post), app_assoc, IH by assumption.
      now rewrite <- app_assoc, orb_true_r.
    + replace (S (length pre)) with (length (pre ++ [rr]))
        by (rewrite length_app; cbn; lia).
      rewrite (cons_middle _ pre post), app_assoc, IH by assumption.
      now rewrite <- app_assoc.
Qed.

Lemma fix_section_loop_raise (new_ip : string) (n : nat) :
  forall (pre post : list DNSRR) (m : bool),
    (length post < n)%nat ->
    fix_section_loop new_ip (seq (length pre) n) (pre ++ post) m
    = Raise IndexError.
Proof.
  induction n as [|n IH]; intros pre post m Hn; [lia|].
  cbn [seq fix_section_loop].
  destruct post as [|rr post].
  - rewrite app_nil_r, lookup_ge_None_2 by lia. reflexivity.
  - rewrite list_lookup_middle by reflexivity.
    assert (Hpost : (length post < n)%nat) by (cbn in Hn; lia).
    destruct (type rr =? 1).
    + rewrite insert_app_r_alt, Nat.sub_diag by lia. cbn [insert list_insert].
      replace (S (length pre)) with (length (pre ++ [set_rdata new_ip rr]))
        by (rewrite length_app; cbn; lia).
      now rewrite (cons_middle _ pre post), app_assoc, IH.
    + replace (S (length pre)) with (length (pre ++ [rr]))
        by (rewrite length_app; cbn; lia).
      now rewrite (cons_middle _ pre post), app_assoc, IH.
Qed.

Lemma fix_section_ok (new_ip : string) (section : list DNSRR) (count : Z) (m : bool) :
  in_range count section = true ->
  fix_section new_ip section count m
  = Ok (rewritten new_ip count section, m || has_A count section).
Proof.
  unfold in_range, fix_section, range. intros H%Z.leb_le.
  apply (fix_section_loop_ok new_ip (Z.to_nat count) [] section m). lia.
Qed.

Lemma fix_section_raise (new_ip : string) (section : list DNSRR) (count : Z) (m : bool) :
  in_range count section = false ->
  fix_section new_ip section count m = Raise IndexError.
Proof.
  unfold in_range, fix_section, range. intros H%Z.leb_gt.
  apply (fix_section_loop_raise new_ip (Z.to_nat count) [] section m). lia.
Qed.

Lemma rewritten_length (new_ip : string) (count : Z) (section : list DNSRR) :
  length (rewritten new_ip count section) = length section.
Proof.
  unfold rewritten.
  now rewrite length_app, length_map, <- length_app, take_drop.
Qed.

Lemma rewritten_lookup (new_ip : string) (count : Z) (section : list DNSRR) (i : nat) :
  rewritten new_ip count section !! i = visit new_ip count i <$> section !! i.
Proof.
  unfold rewritten, visit. change (fun rr => type rr =? 1) with is_A.
  destruct (Z.of_nat i <? count) eqn:E.
  - apply Z.ltb_lt in E. destruct (section !! i) as [rr|] eqn:Hi.
    + rewrite lookup_app_l.
      2:{ apply lookup_lt_Some in Hi. rewrite length_map, length_take. lia. }
      change (map (rewrite_rr new_ip)) with (fmap (M:=list) (rewrite_rr new_ip)).
      rewrite list_lookup_fmap, lookup_take_lt, Hi by lia. reflexivity.
    + apply lookup_ge_None in Hi. cbn.
      apply lookup_ge_None.
      rewrite length_app, length_map, <- length_app, take_drop. lia.
  - apply Z.ltb_ge in E.
    rewrite lookup_app_r; rewrite length_map, length_take.
    2:{ lia. }
    rewrite lookup_drop. cbn [andb].
    destruct (decide (Z.to_nat count <= length section)%nat) as [Hle|Hgt].
    + replace (Z.to_nat count + (i - Z.to_nat count `min` length section))%nat
        with i by lia.
      now destruct (section !! i).
    + rewrite !lookup_ge_None_2 by lia. reflexivity.
Qed.

Lemma rewritten_section (new_ip : string) (count : Z) (section : list DNSRR) :
  section_rewritten new_ip count section (rewritten new_ip count section).
Proof.
  split; [apply rewritten_length|].
  intros i rr Hi. exists (visit new_ip count i rr).
  rewrite rewritten_lookup, Hi. split; [reflexivity|]. unfold visit. split.
  - intros H1%Z.ltb_lt H2%Z.eqb_eq. now rewrite H1, H2.
  - intros [H%Z.ltb_ge | H%Z.eqb_neq]; rewrite H; [reflexivity|].
    now rewrite andb_false_r.
Qed.

Lemma has_A_spec (count : Z) (section : list DNSRR) :
  has_A count section = true <-> A_within count section.
Proof.
  unfold has_A, A_within. rewrite existsb_exists. split.
  - intros (rr & Hin & HA).
    apply list_elem_of_In, list_elem_of_lookup in Hin as [i Hi].
    apply lookup_take_Some in Hi as [Hi Hlt].
    exists i, rr. repeat split; [assumption | lia | now apply Z.eqb_eq].
  - intros (i & rr & Hi & Hlt & HA). exists rr. split.
    + apply list_elem_of_In, list_elem_of_lookup. exists i.
      apply lookup_take_Some. split; [assumption | lia].
    + now apply Z.eqb_eq.
Qed.

Lemma map_rewrite_no_A (new_ip : string) (l : list DNSRR) :
  existsb is_A l = false -> map (rewrite_rr new_ip) l = l.
Proof.
  induction l as [|rr l IH]; [reflexivity|].
  cbn. intros [H1 H2]%orb_false_elim.
  unfold rewrite_rr at 1. rewrite H1. f_equal. now apply IH.
Qed.

Lemma rewritten_no_A (new_ip : string) (count : Z) (section : list DNSRR) :
  has_A count section = false -> rewritten new_ip count section = section.
Proof.
  unfold has_A, rewritten. intros H.
  rewrite map_rewrite_no_A by assumption. apply take_drop.
Qed.

Lemma rewrite_rr_type (new_ip : string) (rr : DNSRR) :
  type (rewrite_rr new_ip rr) = type rr.
Proof. unfold rewrite_rr. now destruct (is_A rr). Qed.

Lemma rewrite_rr_idem (new_ip : string) (rr : DNSRR) :
  rewrite_rr new_ip (rewrite_rr new_ip rr) = rewrite_rr new_ip rr.
Proof.
  unfold rewrite_rr. destruct (is_A rr) eqn:E; [|now rewrite E].
  unfold is_A in *. cbn. now rewrite E.
Qed.

Lemma rewritten_idem (new_ip : string) (count : Z) (section : list DNSRR) :
  rewritten new_ip count (rewritten new_ip count section)
  = rewritten new_ip count section.
Proof.
  apply list_eq; intros i. rewrite !rewritten_lookup.
  destruct (section !! i) as [rr|]; [cbn|reflexivity].
  f_equal. unfold visit. change (fun rr => type rr =? 1) with is_A.
  destruct (Z.of_nat i <? count); [cbn [andb]|reflexivity].
  apply rewrite_rr_idem.
Qed.

Lemma has_A_rewritten (new_ip : string) (count : Z) (section : list DNSRR) :
  has_A count (rewritten new_ip count section) = has_A count section.
Proof.
  unfold has_A, rewritten.
  assert (Htake : take (Z.to_nat count)
            (map (rewrite_rr new_ip) (take (Z.to_nat count) section)
             ++ drop (Z.to_nat count) section)
          = map (rewrite_rr new_ip) (take (Z.to_nat count) section)).
  { destruct (decide (Z.to_nat count <= length section)%nat) as [Hle|Hgt].
    - rewrite take_app_le by (rewrite length_map, length_take; lia).
      apply take_ge. rewrite length_map, length_take. lia.
    - rewrite drop_ge, app_nil_r by lia.
      apply take_ge. rewrite length_map, length_take. lia. }
  rewrite Htake. clear Htake.
  induction (take (Z.to_nat count) section) as [|rr l IH]; [reflexivity|].
  cbn. rewrite IH. f_equal. unfold is_A. now rewrite rewrite_rr_type.
Qed.

Lemma in_range_rewritten (new_ip : string) (count count' : Z) (section : list DNSRR) :
  in_range count' (rewritten new_ip count section) = in_range count' section.
Proof. unfold in_range. now rewrite rewritten_length. Qed.

Lemma fix_sections_eq (new_ip : string) (dns : DNS) :
  fix_sections new_ip dns
  = if dns_in_range dns then Ok (dns_rewritten new_ip dns, dns_has_A dns)
    else Raise IndexError.
Proof.
  unfold fix_sections, dns_in_range, dns_has_A, dns_rewritten.
  destruct (in_range (ancount dns) (an dns)) eqn:E1;
    [rewrite fix_section_ok by assumption | now rewrite fix_section_raise].
  cbn [bind andb orb].
  destruct (in_range (nscount dns) (ns dns)) eqn:E2;
    [rewrite fix_section_ok by assumption | now rewrite fix_section_raise].
  cbn [bind andb].
  destruct (in_range (arcount dns) (ar dns)) eqn:E3;
    [rewrite fix_section_ok by assumption | now rewrite fix_section_raise].
  reflexivity.
Qed.

Lemma dns_rewritten_no_A (new_ip : string) (dns : DNS) :
  dns_has_A dns = false -> dns_rewritten new_ip dns = dns.
Proof.
  unfold dns_has_A, dns_rewritten.
  intros [[H1 H2]%orb_false_elim H3]%orb_false_elim.
  rewrite !rewritten_no_A by assumption. now destruct dns.
Qed.

Lemma dns_rewritten_idem (new_ip : string) (dns : DNS) :
  dns_rewritten new_ip (dns_rewritten new_ip dns) = dns_rewritten new_ip dns.
Proof. unfold dns_rewritten. cbn. now rewrite !rewritten_idem. Qed.

Lemma dns_has_A_rewritten (new_ip : string) (dns : DNS) :
  dns_has_A (dns_rewritten new_ip dns) = dns_has_A dns.
Proof. unfold dns_has_A, dns_rewritten. cbn. now rewrite !has_A_rewritten. Qed.

Lemma dns_in_range_rewritten (new_ip : string) (dns : DNS) :
  dns_in_range (dns_rewritten new_ip dns) = dns_in_range dns.
Proof. unfold dns_in_range, dns_rewritten. cbn. now rewrite !in_range_rewritten. Qed.

(** ** More on layers *)

Lemma updlayer_absent {A : Type} (cls : Layer -> option A) (inj : A -> Layer)
    (f : A -> A) (ls : list Layer) :
  getlayer cls ls = None -> updlayer cls inj f ls = ls.
Proof.
  induction ls as [|l ls IH]; [reflexivity|].
  cbn. destruct (cls l); [discriminate|].
  intros H. now rewrite IH.
Qed.

Lemma updlayer_ext_first {A : Type} (cls : Layer -> option A) (inj : A -> Layer)
    (f g : A -> A) (ls : list Layer) (a : A) :
  getlayer cls ls = Some a -> f a = g a ->
  updlayer cls inj f ls = updlayer cls inj g ls.
Proof.
  induction ls as [|l ls IH]; [reflexivity|].
  cbn. destruct (cls l) as [a'|].
  - now intros [= ->] ->.
  - intros H1 H2. now rewrite IH.
Qed.

Lemma updlayer_ext {A : Type} (cls : Layer -> option A) (inj : A -> Layer)
    (f g : A -> A) (ls : list Layer) :
  (forall a, f a = g a) -> updlayer cls inj f ls = updlayer cls inj g ls.
Proof.
  intros H. induction ls as [|l ls IH]; [reflexivity|].
  cbn. destruct (cls l); now rewrite ?H, ?IH.
Qed.

Section TwoClasses.

Context {A B : Type}.
Context (clsA : Layer -> option A) (injA : A -> Layer).
Context (clsB : Layer -> option B) (injB : B -> Layer).
Hypothesis A_not_B : forall l a, clsA l = Some a -> clsB l = None.
Hypothesis injA_not_B : forall a, clsB (injA a) = None.
Hypothesis injB_not_A : forall b, clsA (injB b) = None.

Lemma updlayer_comm (f : A -> A) (g : B -> B) (ls : list Layer) :
  updlayer clsA injA f (updlayer clsB injB g ls)
  = updlayer clsB injB g (updlayer clsA injA f ls).
Proof.
  induction ls as [|l ls IH]; [reflexivity|].
  cbn. destruct (clsA l) as [a|] eqn:EA.
  - rewrite (A_not_B _ _ EA). cbn. now rewrite EA, injA_not_B.
  - destruct (clsB l) as [b|] eqn:EB; cbn.
    + now rewrite injB_not_A, EB.
    + now rewrite EA, EB, IH.
Qed.

End TwoClasses.

Ltac layer_cases :=
  first [ intros [] ? ; cbn; congruence | intros ?; reflexivity ].



Lemma del_len_chksum_eq (p : Packet) :
  del_len_chksum p = mkPacket (time p) (del_layers (layers p)).
Proof.
  unfold del_len_chksum, del_layers, haslayer, set_layers.
  destruct (getlayer as_IP (layers p)) eqn:EI; cbn [layers time].
  - destruct (getlayer as_UDP _) eqn:EU; cbn [layers time]; [reflexivity|].
    rewrite (updlayer_absent as_UDP) by assumption. reflexivity.
  - rewrite (updlayer_absent as_IP) by assumption.
    destruct (getlayer as_UDP _) eqn:EU; cbn [layers time]; [reflexivity|].
    rewrite (updlayer_absent as_UDP) by assumption. now destruct p.
Qed.

Lemma del_layers_idem (ls : list Layer) : del_layers (del_layers ls) = del_layers ls.
Proof.
  unfold del_layers.
  rewrite (updlayer_comm as_IP L_IP as_UDP L_UDP) by layer_cases.
  rewrite (updlayer_updlayer as_UDP L_UDP) by layer_cases.
  rewrite (updlayer_updlayer as_IP L_IP) by layer_cases.
  reflexivity.
Qed.

Lemma getlayer_DNS_del_layers (ls : list Layer) :
  getlayer as_DNS (del_layers ls) = getlayer as_DNS ls.
Proof.
  unfold del_layers.
  rewrite (getlayer_updlayer_other as_UDP L_UDP as_DNS) by layer_cases.
  now rewrite (getlayer_updlayer_other as_IP L_IP as_DNS) by layer_cases.
Qed.

Lemma del_layers_upd_DNS (f : DNS -> DNS) (ls : list Layer) :
  updlayer as_DNS L_DNS f (del_layers ls) = del_layers (updlayer as_DNS L_DNS f ls).
Proof.
  unfold del_layers.
  rewrite (updlayer_comm as_DNS L_DNS as_UDP L_UDP) by layer_cases.
  now rewrite (updlayer_comm as_DNS L_DNS as_IP L_IP) by layer_cases.
Qed.

(** ** One packet *)

Lemma process_packet_eq (new_ip : string) (p : Packet) :
  process_packet new_ip p
  = match getlayer as_DNS (layers p) with
    | None => Ok (p, false)
    | Some dns =>
        if qr dns =? 1 then
          if dns_in_range dns then
            if dns_has_A dns then Ok (modified_packet new_ip p, true)
            else Ok (p, false)
          else Raise IndexError
        else Ok (p, false)
    end.
Proof.
  unfold process_packet, is_dns_response.
  destruct (getlayer as_DNS (layers p)) as [dns|] eqn:Hdns; [|reflexivity].
  destruct (qr dns =? 1); [|reflexivity]. cbn [negb].
  rewrite fix_sections_eq.
  destruct (dns_in_range dns); [|reflexivity]. cbn [bind].
  destruct (dns_has_A dns) eqn:HA; cbn [negb].
  - rewrite del_len_chksum_eq. unfold modified_packet, set_time, set_layers.
    cbn [time layers].
    now rewrite (updlayer_ext_first as_DNS L_DNS _ (dns_rewritten new_ip) _ dns).
  - unfold set_layers.
    rewrite (updlayer_same as_DNS L_DNS L_DNS_as_DNS _ _ dns Hdns).
    + now destruct p.
    + now apply dns_rewritten_no_A.
Qed.

Lemma process_packet_not_response (new_ip : string) (p : Packet) :
  is_dns_response p = false -> process_packet new_ip p = Ok (p, false).
Proof. unfold process_packet. now intros ->. Qed.

Lemma process_packet_flag (new_ip : string) (p q : Packet) (m : bool) :
  process_packet new_ip p = Ok (q, m) ->
  q = (if m then modified_packet new_ip p else p) /\
  (m = true ->
   exists dns, getlayer as_DNS (layers p) = Some dns /\ qr dns = 1 /\
               dns_in_range dns = true /\ dns_has_A dns = true) /\
  (m = false ->
   forall dns, getlayer as_DNS (layers p) = Some dns -> qr dns = 1 ->
               dns_in_range dns = true /\ dns_has_A dns = false).
Proof.
  rewrite process_packet_eq.
  destruct (getlayer as_DNS (layers p)) as [dns|] eqn:Hdns.
  - destruct (qr dns =? 1) eqn:Hqr.
    + apply Z.eqb_eq in Hqr.
      destruct (dns_in_range dns) eqn:Hr; [|discriminate].
      destruct (dns_has_A dns) eqn:HA; intros [= <- <-];
        (split; [reflexivity|split]); try discriminate.
      * intros _. now exists dns.
      * intros _ dns' [= <-] _. now split.
    + apply Z.eqb_neq in Hqr.
      intros [= <- <-]. split; [reflexivity|split]; [discriminate|].
      intros _ dns' [= <-] Hqr'. contradiction.
  - intros [= <- <-]. split; [reflexivity|split]; [discriminate|].
    intros _ dns' [=].
Qed.

(** ** The loop over the packets *)

Lemma modify_loop_Ok (new_ip : string) (pkts : list Packet) :
  forall new_pkts out,
    modify_loop new_ip pkts new_pkts = Ok out ->
    exists out', out = new_pkts ++ out' /\ Forall2 (processed new_ip) pkts out'.
Proof.
  induction pkts as [|p pkts IH]; intros new_pkts out; cbn [modify_loop].
  - intros [= <-]. exists []. split; [now rewrite app_nil_r | constructor].
  - destruct (process_packet new_ip p) as [[q m]|e] eqn:Hp; [|discriminate].
    cbn [bind]. intros H. apply IH in H as (out' & -> & HF).
    exists (q :: out'). split.
    + now rewrite <- app_assoc.
    + constructor; [now exists m | assumption].
Qed.

Lemma modify_loop_complete (new_ip : string) (pkts out' : list Packet) :
  Forall2 (processed new_ip) pkts out' ->
  forall new_pkts, modify_loop new_ip pkts new_pkts = Ok (new_pkts ++ out').
Proof.
  induction 1 as [|p q pkts out' [m Hp] _ IH]; intros new_pkts; cbn [modify_loop].
  - now rewrite app_nil_r.
  - rewrite Hp. cbn [bind]. rewrite IH. now rewrite <- app_assoc.
Qed.

Lemma modify_loop_Raise (new_ip : string) (pkts : list Packet) :
  forall new_pkts e,
    modify_loop new_ip pkts new_pkts = Raise e ->
    exists p, p ∈ pkts /\ process_packet new_ip p = Raise e.
Proof.
  induction pkts as [|p pkts IH]; intros new_pkts e; cbn [modify_loop].
  - discriminate.
  - destruct (process_packet new_ip p) as [[q m]|e'] eqn:Hp; cbn [bind].
    + intros H. apply IH in H as (p' & Hin & Hp').
      exists p'. split; [now apply list_elem_of_further | assumption].
    + intros [= ->]. exists p. split; [apply list_elem_of_here | assumption].
Qed.

Lemma modify_pkts_Ok (pkts out : list Packet) :
  modify_pkts pkts = Ok out <->
  Forall2 (processed (convert_sciper_to_ip SCIPER)) pkts out.
Proof.
  unfold modify_pkts. split.
  - intros H. apply modify_loop_Ok in H as (out' & -> & HF). exact HF.
  - intros H. apply (modify_loop_complete _ _ _ H []).
Qed.






Lemma process_packet_dns (new_ip : string) (p q : Packet) (m : bool) (dns : DNS) :
  getlayer as_DNS (layers p) = Some dns -> qr dns = 1 ->
  process_packet new_ip p = Ok (q, m) ->
  dns_in_range dns = true /\ m = dns_has_A dns /\
  getlayer as_DNS (layers q) = Some (dns_rewritten new_ip dns).
Proof.
  intros Hdns Hqr. rewrite process_packet_eq, Hdns, (proj2 (Z.eqb_eq _ _) Hqr).
  destruct (dns_in_range dns); [|discriminate].
  destruct (dns_has_A dns) eqn:HA; intros [= <- <-];
    (split; [reflexivity|split; [reflexivity|]]).
  - unfold modified_packet. cbn [layers].
    rewrite getlayer_DNS_del_layers.
    rewrite (getlayer_updlayer as_DNS L_DNS) by layer_cases.
    now rewrite Hdns.
  - now rewrite dns_rewritten_no_A.
Qed.

Lemma A_within_elem (count : Z) (section : list DNSRR) :
  A_within count section -> exists rr, rr ∈ section /\ type rr = 1.
Proof.
  intros (i & rr & Hi & _ & HA). exists rr.
  split; [now apply list_elem_of_lookup_2 with i | assumption].
Qed.

Lemma dns_has_A_contains (dns : DNS) : dns_has_A dns = true -> contains_A dns.
Proof.
  unfold dns_has_A, contains_A. intros H.
  apply orb_true_iff in H as [H|H]; [apply orb_true_iff in H as [H|H]|];
    apply has_A_spec, A_within_elem in H as (rr & Hin & HA);
    exists rr; (split; [|assumption]); rewrite !elem_of_app; tauto.
Qed.

Lemma process_packet_time (new_ip : string) (p q : Packet) (m : bool) :
  process_packet new_ip p = Ok (q, m) -> time q = time p.
Proof.
  intros H. apply process_packet_flag in H as [-> _]. now destruct m.
Qed.

Lemma getlayer_IP_del_layers (ls : list Layer) :
  getlayer as_IP (del_layers ls) = option_map del_ip_len_chksum (getlayer as_IP ls).
Proof.
  unfold del_layers.
  rewrite (getlayer_updlayer_other as_UDP L_UDP as_IP) by layer_cases.
  now rewrite (getlayer_updlayer as_IP L_IP) by layer_cases.
Qed.

Lemma getlayer_UDP_del_layers (ls : list Layer) :
  getlayer as_UDP (del_layers ls) = option_map del_udp_len_chksum (getlayer as_UDP ls).
Proof.
  unfold del_layers.
  rewrite (getlayer_updlayer as_UDP L_UDP) by layer_cases.
  now rewrite (getlayer_updlayer_other as_IP L_IP as_UDP) by layer_cases.
Qed.

(** ** Frames *)

Lemma Forall2_updlayer_same {A : Type} (R : Layer -> Layer -> Prop)
    (cls : Layer -> option A) (inj : A -> Layer) (f : A -> A) (ls : list Layer) :
  (forall l, R l l) ->
  (forall l a, cls l = Some a -> R l (inj (f a))) ->
  Forall2 R ls (updlayer cls inj f ls).
Proof.
  intros Hrefl Hupd. induction ls as [|l ls IH]; [constructor|].
  cbn. destruct (cls l) as [a|] eqn:E.
  - constructor; [now apply Hupd|]. now apply Forall_Forall2_diag, Forall_forall.
  - now constructor.
Qed.

Lemma Forall2_updlayer_r {A : Type} (R : Layer -> Layer -> Prop)
    (cls : Layer -> option A) (inj : A -> Layer) (f : A -> A) (ls ls' : list Layer) :
  (forall l l' a, R l l' -> cls l' = Some a -> R l (inj (f a))) ->
  Forall2 R ls ls' ->
  Forall2 R ls (updlayer cls inj f ls').
Proof.
  intros Hupd. induction 1 as [|l l' ls ls' HR HF IH]; [constructor|].
  cbn. destruct (cls l') as [a|] eqn:E.
  - constructor; [now apply Hupd with l'|assumption].
  - now constructor.
Qed.

Lemma section_frame_rewritten (new_ip : string) (count : Z) (sec : list DNSRR) :
  section_frame new_ip count sec (rewritten new_ip count sec).
Proof.
  split; [apply rewritten_length|].
  intros i rr rr' Hi. rewrite rewritten_lookup, Hi. intros [= <-].
  unfold rr_frame, visit.
  destruct (Z.of_nat i <? count) eqn:E1; [|now left].
  destruct (type rr =? 1) eqn:E2; [|now left].
  right. apply Z.ltb_lt in E1. apply Z.eqb_eq in E2. tauto.
Qed.

Lemma section_frame_refl (new_ip : string) (count : Z) (sec : list DNSRR) :
  section_frame new_ip count sec sec.
Proof. split; [reflexivity|]. intros i rr rr' -> [= <-]. now left. Qed.

Lemma layer_frame_refl (new_ip : string) (l : Layer) : layer_frame new_ip l l.
Proof.
  destruct l; cbn; [now left | now left | | now split].
  unfold dns_frame. repeat split; try reflexivity.
  all: intros i rr rr' -> [= <-]; now left.
Qed.

Lemma dns_frame_rewritten (new_ip : string) (dns : DNS) :
  dns_frame new_ip dns (dns_rewritten new_ip dns).
Proof.
  unfold dns_frame, dns_rewritten. cbn.
  repeat split; try reflexivity; try apply rewritten_length.
  all: apply section_frame_rewritten.
Qed.

Lemma modified_packet_frame_layers (new_ip : string) (ls : list Layer) :
  Forall2 (layer_frame new_ip) ls
    (del_layers (updlayer as_DNS L_DNS (dns_rewritten new_ip) ls)).
Proof.
  unfold del_layers.
  apply Forall2_updlayer_r.
  { intros l l' a HR Hcls. destruct l'; try discriminate Hcls.
    injection Hcls as ->.
    destruct l; cbn in *; try contradiction.
    right. destruct HR as [->| ->]; reflexivity. }
  apply Forall2_updlayer_r.
  { intros l l' a HR Hcls. destruct l'; try discriminate Hcls.
    injection Hcls as ->.
    destruct l; cbn in *; try contradiction.
    right. destruct HR as [->| ->]; reflexivity. }
  apply Forall2_updlayer_same.
  - apply layer_frame_refl.
  - intros l a Hcls. destruct l; try discriminate Hcls.
    injection Hcls as ->. apply dns_frame_rewritten.
Qed.

(** ** Reading back what was written *)

Lemma modified_packet_DNS (new_ip : string) (p : Packet) :
  getlayer as_DNS (layers (modified_packet new_ip p))
  = option_map (dns_rewritten new_ip) (getlayer as_DNS (layers p)).
Proof.
  unfold modified_packet. cbn [layers]. rewrite getlayer_DNS_del_layers.
  now rewrite (getlayer_updlayer as_DNS L_DNS) by layer_cases.
Qed.

Lemma modified_packet_idem (new_ip : string) (p : Packet) :
  modified_packet new_ip (modified_packet new_ip p) = modified_packet new_ip p.
Proof.
  unfold modified_packet. cbn [time layers]. f_equal.
  rewrite del_layers_upd_DNS, del_layers_idem. f_equal.
  rewrite (updlayer_updlayer as_DNS L_DNS) by layer_cases.
  apply updlayer_ext, dns_rewritten_idem.
Qed.

(** What line 18 and the three loops look at in a DNS layer. *)
Lemma dns_rewritten_class (new_ip : string) (d d' : DNS) :
  dns_rewritten new_ip d = dns_rewritten new_ip d' ->
  qr d = qr d' /\ dns_in_range d = dns_in_range d' /\ dns_has_A d = dns_has_A d'.
Proof.
  intros H. repeat split.
  - now apply (f_equal qr) in H.
  - now rewrite <- (dns_in_range_rewritten new_ip d), H, dns_in_range_rewritten.
  - now rewrite <- (dns_has_A_rewritten new_ip d), H, dns_has_A_rewritten.
Qed.

(** Let [q] be what the loop body appended for [p], and [r] a packet that
    agrees with [q] on everything the modification does not overwrite.
    Then the loop body on [r] appends [q] when [q] was modified and [r]
    itself when it was not. *)
Lemma process_packet_reread (new_ip : string) (p q r : Packet) (m : bool) :
  process_packet new_ip p = Ok (q, m) ->
  modified_packet new_ip r = modified_packet new_ip q ->
  process_packet new_ip r = Ok (if m then q else r, m).
Proof.
  intros Hp Hr.
  pose proof (f_equal (fun x => getlayer as_DNS (layers x)) Hr) as Hdns.
  cbn beta in Hdns. rewrite !modified_packet_DNS in Hdns.
  destruct (process_packet_flag _ _ _ _ Hp) as (Hq & Ht & Hf).
  rewrite process_packet_eq.
  destruct m.
  - destruct (Ht eq_refl) as (dns & Hd & Hqr & Hrange & HA).
    destruct (process_packet_dns _ _ _ _ _ Hd Hqr Hp) as (_ & _ & Hq').
    rewrite Hq' in Hdns.
    destruct (getlayer as_DNS (layers r)) as [dr|]; [|discriminate].
    cbn [option_map] in Hdns. apply (inj Some) in Hdns.
    rewrite dns_rewritten_idem in Hdns.
    destruct (dns_rewritten_class _ _ _ Hdns) as (-> & -> & ->).
    rewrite (proj2 (Z.eqb_eq _ _) Hqr), Hrange, HA.
    now rewrite Hr, Hq, modified_packet_idem.
  - subst q.
    destruct (getlayer as_DNS (layers r)) as [dr|],
             (getlayer as_DNS (layers p)) as [dp|] eqn:Hd;
      try discriminate; [|reflexivity].
    cbn [option_map] in Hdns. apply (inj Some) in Hdns.
    destruct (dns_rewritten_class _ _ _ Hdns) as (-> & -> & ->).
    destruct (qr dp =? 1) eqn:Hqr; [|reflexivity].
    apply Z.eqb_eq in Hqr.
    destruct (Hf eq_refl dp eq_refl Hqr) as [-> ->]. reflexivity.
Qed.

Lemma process_packet_idem (new_ip : string) (p q : Packet) (m : bool) :
  process_packet new_ip p = Ok (q, m) -> process_packet new_ip q = Ok (q, m).
Proof.
  intros Hp. rewrite (process_packet_reread new_ip p q q m Hp eq_refl).
  now destruct m.
Qed.

Lemma modify_pkts_idem (pkts out : list Packet) :
  modify_pkts pkts = Ok out -> modify_pkts out = Ok out.
Proof.
  rewrite !modify_pkts_Ok.
  induction 1 as [|p q pkts out [m Hp] _ IH]; constructor; [|assumption].
  exists m. now apply process_packet_idem with p.
Qed.

(** A packet read back with only the length and checksum fields of its
    IP and UDP headers changed agrees on all that. *)
Lemma del_len_chksum_modified_packet (new_ip : string) (q r : Packet) :
  del_len_chksum r = del_len_chksum q ->
  modified_packet new_ip r = modified_packet new_ip q.
Proof.
  rewrite !del_len_chksum_eq. intros [= Ht Hl]. unfold modified_packet.
  now rewrite <- !del_layers_upd_DNS, Hl, Ht.
Qed.

(** ** Sections that hold no more records than declared *)

Lemma visit_type (new_ip : string) (count : Z) (i : nat) (rr : DNSRR) :
  type (visit new_ip count i rr) = type rr.
Proof. unfold visit. now destruct (_ && _). Qed.

Lemma rewritten_covered_A (new_ip : string) (count : Z) (sec : list DNSRR) (rr : DNSRR) :
  Z.of_nat (length sec) <= count ->
  rr ∈ rewritten new_ip count sec -> type rr = 1 -> rdata rr = new_ip.
Proof.
  intros Hc [i Hi]%list_elem_of_lookup HA.
  rewrite rewritten_lookup in Hi.
  destruct (sec !! i) as [rr0|] eqn:H0; [|discriminate].
  injection Hi as <-. rewrite visit_type in HA.
  apply lookup_lt_Some in H0. unfold visit.
  rewrite (proj2 (Z.ltb_lt _ _)) by lia.
  now rewrite (proj2 (Z.eqb_eq _ _) HA).
Qed.

Lemma A_within_covered (count : Z) (sec : list DNSRR) :
  Z.of_nat (length sec) <= count ->
  A_within count sec <-> exists rr, rr ∈ sec /\ type rr = 1.
Proof.
  intros Hc. split; [apply A_within_elem|].
  intros (rr & [i Hi]%list_elem_of_lookup & HA).
  exists i, rr. repeat split; try assumption.
  apply lookup_lt_Some in Hi. lia.
Qed.

(** On a response whose sections hold no more records than declared, the
    appended packet has the target address in every A record. *)
Lemma every_A_overwritten_when_covered
    (new_ip : string) (p q : Packet) (m : bool) (dns dns' : DNS) :
  getlayer as_DNS (layers p) = Some dns -> qr dns = 1 ->
  Z.of_nat (length (an dns)) <= ancount dns ->
  Z.of_nat (length (ns dns)) <= nscount dns ->
  Z.of_nat (length (ar dns)) <= arcount dns ->
  process_packet new_ip p = Ok (q, m) ->
  getlayer as_DNS (layers q) = Some dns' ->
  all_A_have new_ip dns'.
Proof.
  intros Hdns Hqr Han Hns Har Hp Hq.
  destruct (process_packet_dns _ _ _ _ _ Hdns Hqr Hp) as (_ & _ & Hq').
  assert (dns' = dns_rewritten new_ip dns) as -> by congruence.
  intros rr Hin HA. cbn in Hin. rewrite !elem_of_app in Hin.
  destruct Hin as [Hin|[Hin|Hin]]; eauto using rewritten_covered_A.
Qed.

(** On such a response the modification runs exactly when some section
    holds an A record. *)
Lemma modified_iff_contains_A_when_covered
    (new_ip : string) (p q : Packet) (m : bool) (dns : DNS) :
  getlayer as_DNS (layers p) = Some dns -> qr dns = 1 ->
  Z.of_nat (length (an dns)) <= ancount dns ->
  Z.of_nat (length (ns dns)) <= nscount dns ->
  Z.of_nat (length (ar dns)) <= arcount dns ->
  process_packet new_ip p = Ok (q, m) ->
  m = true <-> contains_A dns.
Proof.
  intros Hdns Hqr Han Hns Har Hp.
  destruct (process_packet_dns _ _ _ _ _ Hdns Hqr Hp) as (_ & -> & _).
  split; [apply dns_has_A_contains|].
  intros (rr & Hin & HA). rewrite !elem_of_app in Hin.
  unfold dns_has_A. rewrite !orb_true_iff, !has_A_spec.
  rewrite !A_within_covered by assumption.
  destruct Hin as [Hin|[Hin|Hin]]; eauto.
Qed.

(** ** Records below the declared counts *)

(** On any DNS response on which the loop body returns, the appended
    packet has the target address in every A record at an index below the
    declared count of its section, and every other record as it was. *)
Lemma rewriter_overwrites_A_within_count
    (new_ip : string) (p q : Packet) (m : bool) (dns : DNS) :
  getlayer as_DNS (layers p) = Some dns -> qr dns = 1 ->
  process_packet new_ip p = Ok (q, m) ->
  exists dns',
    getlayer as_DNS (layers q) = Some dns' /\
    section_rewritten new_ip (ancount dns) (an dns) (an dns') /\
    section_rewritten new_ip (nscount dns) (ns dns) (ns dns') /\
    section_rewritten new_ip (arcount dns) (ar dns) (ar dns').
Proof.
  intros Hdns Hqr Hp.
  destruct (process_packet_dns _ _ _ _ _ Hdns Hqr Hp) as (_ & _ & Hq).
  exists (dns_rewritten new_ip dns). split; [exact Hq|].
  cbn. repeat split; apply rewritten_section.
Qed.

Lemma section_rewritten_covered (new_ip : string) (count : Z) (sec sec' : list DNSRR) :
  Z.of_nat (length sec) <= count ->
  section_rewritten new_ip count sec sec' ->
  section_all_rewritten new_ip sec sec'.
Proof.
  intros Hc [Hlen H]. split; [exact Hlen|].
  intros i rr Hi. destruct (H i rr Hi) as (rr' & Hi' & HA & Hother).
  exists rr'. split; [exact Hi'|]. split.
  - apply HA. apply lookup_lt_Some in Hi. lia.
  - intros Hn. apply Hother. now right.
Qed.

(** The flag of the appended packet, read on the records below the
    declared counts. *)
Lemma modified_iff_A_within_count (new_ip : string) (p q : Packet) (m : bool) :
  process_packet new_ip p = Ok (q, m) ->
  (m = true <->
   exists dns, getlayer as_DNS (layers p) = Some dns /\ qr dns = 1 /\
               (A_within (ancount dns) (an dns) \/
                A_within (nscount dns) (ns dns) \/
                A_within (arcount dns) (ar dns))) /\
  (m = false -> q = p).
Proof.
  intros Hp. destruct (process_packet_flag _ _ _ _ Hp) as (Hq & Ht & Hf).
  split; [split|].
  - intros Hm. destruct (Ht Hm) as (dns & Hdns & Hqr & _ & HA).
    exists dns. repeat split; try assumption.
    unfold dns_has_A in HA.
    apply orb_true_iff in HA as [HA|HA]; [apply orb_true_iff in HA as [HA|HA]|];
      apply has_A_spec in HA; tauto.
  - intros (dns & Hdns & Hqr & HA).
    destruct m; [reflexivity|].
    destruct (Hf eq_refl dns Hdns Hqr) as [_ HnA].
    unfold dns_has_A in HnA.
    apply orb_false_elim in HnA as [HnA H3].
    apply orb_false_elim in HnA as [H1 H2].
    destruct HA as [HA|[HA|HA]]; apply has_A_spec in HA; congruence.
  - intros ->. exact Hq.
Qed.

(** * The claims *)

(** ** The address derivation *)

(** C2.  [convert_sciper_to_ip] cuts its argument into consecutive chunks of
    two characters, the last one of a single character when the length is
    odd, joins them with a dot and puts [00.] in front; on [377690] it
    gives [00.37.76.90].  This holds of every string, so in particular of
    every non-empty string of decimal digits, and the function being a Rocq
    function it has no effect and gives equal results on equal arguments. *)
Theorem convert_sciper_to_ip_chunks :
  (forall s, convert_sciper_to_ip s = "00." +:+ String.concat "." (chunk_pairs s)) /\
  (forall s,
      String.concat "" (chunk_pairs s) = s /\
      length (chunk_pairs s) = ((String.length s + 1) / 2)%nat /\
      forall i c, chunk_pairs s !! i = Some c ->
                  c = substring (2 * i) 2 s /\
                  String.length c = Nat.min 2 (String.length s - 2 * i)) /\
  convert_sciper_to_ip "377690" = "00.37.76.90".
Proof.
  split; [|split].
  - intros s. apply convert_sciper_to_ip_derive.
  - intros s. split; [apply chunk_pairs_concat|].
    split; [apply chunk_pairs_length|].
    intros i c. apply chunk_pairs_lookup.
  - reflexivity.
Qed.

(** ** The record rewriter *)

(** A capture of one response with one A record: the address becomes
    [00.37.76.90], the lengths and checksums are deleted, and the capture
    time is kept. *)
Example single_A_record_rewritten :
  modify_pkts [pkt_single]
  = Ok [mkPacket 1006
          [ether;
           L_IP (mkIP 0 None 4242 0 64 17 None "8.8.8.8" "10.0.0.2");
           L_UDP (mkUDP 53 40000 None None);
           L_DNS (dns_of 1 1 0 0
                    [mkDNSRR "example.com." 1 1 300 (Some 4) "00.37.76.90"] [] [])]].
Proof. reflexivity. Qed.

(** C8.  [fix_section] visits the indices of [range(count)], whatever the
    length of the section.  When each of the three declared counts is at
    most the number of records of its section, every index of the three
    loops is in range and the three calls return without [IndexError]:
    each section keeps its length and its record [i] is overwritten
    exactly when [i] is below the count and the record is an A record. *)
Theorem fix_sections_in_range (new_ip : string) (dns : DNS) :
  ancount dns <= Z.of_nat (length (an dns)) ->
  nscount dns <= Z.of_nat (length (ns dns)) ->
  arcount dns <= Z.of_nat (length (ar dns)) ->
  (forall i, i ∈ range (ancount dns) -> is_Some (an dns !! i)) /\
  (forall i, i ∈ range (nscount dns) -> is_Some (ns dns !! i)) /\
  (forall i, i ∈ range (arcount dns) -> is_Some (ar dns !! i)) /\
  exists dns' modified,
    fix_sections new_ip dns = Ok (dns', modified) /\
    section_rewritten new_ip (ancount dns) (an dns) (an dns') /\
    section_rewritten new_ip (nscount dns) (ns dns) (ns dns') /\
    section_rewritten new_ip (arcount dns) (ar dns) (ar dns').
Proof.
  intros Han Hns Har.
  assert (Hidx : forall count (sec : list DNSRR) i,
             count <= Z.of_nat (length sec) -> i ∈ range count -> is_Some (sec !! i)).
  { intros count sec i Hc Hi. unfold range in Hi.
    apply elem_of_seq in Hi. apply lookup_lt_is_Some. lia. }
  repeat split; eauto.
  exists (dns_rewritten new_ip dns), (dns_has_A dns).
  rewrite fix_sections_eq. unfold dns_in_range, in_range.
  rewrite !(proj2 (Z.leb_le _ _)) by assumption.
  split; [reflexivity|]. cbn. repeat split; apply rewritten_section.
Qed.

Lemma fix_sections_in_range_witness :
  (forall i, i ∈ range 2 -> is_Some ([rr_CNAME; rr_A] !! i)) /\
  (forall i, i ∈ range 1 -> is_Some ([rr_NS] !! i)) /\
  (forall i, i ∈ range 1 -> is_Some ([rr_A] !! i)) /\
  exists dns' modified,
    fix_sections "00.37.76.90" dns_answer = Ok (dns', modified) /\
    section_rewritten "00.37.76.90" 2 [rr_CNAME; rr_A] (an dns') /\
    section_rewritten "00.37.76.90" 1 [rr_NS] (ns dns') /\
    section_rewritten "00.37.76.90" 1 [rr_A] (ar dns').
Proof.
  apply (fix_sections_in_range "00.37.76.90" dns_answer); cbn; lia.
Defined.

(** C1.  A packet that [rdpcap] returns holds, in no section, more records
    than the section declares.  On such a DNS response with at least one A
    record in its answer, authority or additional section, when the loop
    body returns, the appended packet went through the modification:
    every A record of its three sections has the target address as
    [rdata], its other fields kept, and every record that is not an A
    record is as it was. *)
Theorem rewriter_overwrites_every_A
    (new_ip : string) (p q : Packet) (m : bool) (dns : DNS) :
  getlayer as_DNS (layers p) = Some dns -> qr dns = 1 ->
  contains_A dns ->
  no_more_than_declared dns ->
  process_packet new_ip p = Ok (q, m) ->
  m = true /\
  exists dns',
    getlayer as_DNS (layers q) = Some dns' /\
    all_A_have new_ip dns' /\
    section_all_rewritten new_ip (an dns) (an dns') /\
    section_all_rewritten new_ip (ns dns) (ns dns') /\
    section_all_rewritten new_ip (ar dns) (ar dns').
Proof.
  intros Hdns Hqr HA (Han & Hns & Har) Hp.
  split.
  { now apply (modified_iff_contains_A_when_covered new_ip p q m dns). }
  destruct (rewriter_overwrites_A_within_count _ _ _ _ _ Hdns Hqr Hp)
    as (dns' & Hq & Ran & Rns & Rar).
  exists dns'. split; [exact Hq|]. split.
  { now apply (every_A_overwritten_when_covered new_ip p q m dns). }
  split; [|split].
  - exact (section_rewritten_covered _ _ _ _ Han Ran).
  - exact (section_rewritten_covered _ _ _ _ Hns Rns).
  - exact (section_rewritten_covered _ _ _ _ Har Rar).
Qed.

Lemma rewriter_overwrites_every_A_witness :
  true = true /\
  exists dns',
    getlayer as_DNS (layers (modified_packet "00.37.76.90" pkt_answer)) = Some dns' /\
    all_A_have "00.37.76.90" dns' /\
    section_all_rewritten "00.37.76.90" [rr_CNAME; rr_A] (an dns') /\
    section_all_rewritten "00.37.76.90" [rr_NS] (ns dns') /\
    section_all_rewritten "00.37.76.90" [rr_A] (ar dns').
Proof.
  apply (rewriter_overwrites_every_A "00.37.76.90" pkt_answer
           (modified_packet "00.37.76.90" pkt_answer) true dns_answer);
    [reflexivity | reflexivity | | | reflexivity].
  - exists rr_A. split; [|reflexivity].
    cbn. apply list_elem_of_further, list_elem_of_here.
  - unfold no_more_than_declared. cbn. lia.
Defined.

(** A response built in memory with an A record in its answer section and
    an [ancount] of 0: the loop runs over [range(0)] and the packet is
    appended as it was. *)
Example late_answer_appended_unchanged :
  process_packet (convert_sciper_to_ip SCIPER) pkt_late_answer
  = Ok (pkt_late_answer, false).
Proof. reflexivity. Qed.

(** ** Which packets are modified *)



(** ** The packets that are not modified *)

(** C4.  When the run produces its output, a packet that is not a DNS
    response, or that has no A record in any section of its DNS layer, is
    in the output at the index it had in the input, equal to the input
    packet in every field, the capture time included. *)
Theorem passthrough_unchanged (pkts out : list Packet) (N : nat) (p : Packet) :
  modify_pkts pkts = Ok out ->
  pkts !! N = Some p ->
  is_dns_response p = false \/ no_A_records p ->
  out !! N = Some p.
Proof.
  intros Hrun HN Hp. apply modify_pkts_Ok in Hrun.
  destruct (Forall2_lookup_l _ _ _ _ _ Hrun HN) as (q & Hq & m & Hproc).
  rewrite Hq. f_equal.
  destruct Hp as [Hp|Hp].
  - rewrite (process_packet_not_response _ _ Hp) in Hproc. congruence.
  - destruct (process_packet_flag _ _ _ _ Hproc) as (Hqm & Ht & _).
    destruct m; [|assumption].
    destruct (Ht eq_refl) as (dns & Hdns & _ & _ & HA).
    destruct (Hp dns Hdns). now apply dns_has_A_contains.
Qed.

Lemma passthrough_unchanged_witness :
  [pkt_query; modified_packet "00.37.76.90" pkt_answer; pkt_cname; pkt_plain] !! 2%nat
  = Some pkt_cname.
Proof.
  apply (passthrough_unchanged [pkt_query; pkt_answer; pkt_cname; pkt_plain]
           [pkt_query; modified_packet "00.37.76.90" pkt_answer; pkt_cname; pkt_plain]
           2 pkt_cname); [reflexivity | reflexivity |].
  right. intros dns [= <-] (rr & Hin & HA).
  cbn in Hin. apply list_elem_of_singleton in Hin as ->. discriminate HA.
Defined.

(** ** The packets that are modified *)

(** C5.  When the run produces its output, a packet that went through the
    modification is in the output at the index it had in the input, with
    the capture time of the input packet; the length and the checksum of
    its IP header and of its UDP header, when present, are deleted. *)
Theorem modified_keeps_time (pkts out : list Packet) (N : nat) (p q : Packet) :
  modify_pkts pkts = Ok out ->
  pkts !! N = Some p ->
  process_packet (convert_sciper_to_ip SCIPER) p = Ok (q, true) ->
  out !! N = Some q /\ time q = time p /\
  (forall h, getlayer as_IP (layers q) = Some h ->
             ip_len h = None /\ ip_chksum h = None) /\
  (forall u, getlayer as_UDP (layers q) = Some u ->
             udp_len u = None /\ udp_chksum u = None).
Proof.
  intros Hrun HN Hp. apply modify_pkts_Ok in Hrun.
  destruct (Forall2_lookup_l _ _ _ _ _ Hrun HN) as (q' & Hq' & m & Hproc).
  assert (q' = q) as -> by congruence.
  split; [assumption|].
  split; [now apply process_packet_time in Hp|].
  apply process_packet_flag in Hp as [-> _]. unfold modified_packet. cbn [layers].
  split.
  - intros h. rewrite getlayer_IP_del_layers.
    destruct (getlayer as_IP _); [|discriminate]. now intros [= <-].
  - intros u. rewrite getlayer_UDP_del_layers.
    destruct (getlayer as_UDP _); [|discriminate]. now intros [= <-].
Qed.

Lemma modified_keeps_time_witness :
  [pkt_query; modified_packet "00.37.76.90" pkt_answer] !! 1%nat
  = Some (modified_packet "00.37.76.90" pkt_answer) /\
  time (modified_packet "00.37.76.90" pkt_answer) = time pkt_answer /\
  (forall h, getlayer as_IP (layers (modified_packet "00.37.76.90" pkt_answer)) = Some h ->
             ip_len h = None /\ ip_chksum h = None) /\
  (forall u, getlayer as_UDP (layers (modified_packet "00.37.76.90" pkt_answer)) = Some u ->
             udp_len u = None /\ udp_chksum u = None).
Proof.
  apply (modified_keeps_time [pkt_query; pkt_answer]
           [pkt_query; modified_packet "00.37.76.90" pkt_answer] 1 pkt_answer);
    reflexivity.
Defined.

(** C10.  A packet that went through the modification differs from the
    input packet at most in the [rdata] of A records at an index below the
    declared count of their section and in the deleted length and
    checksum of the IP and UDP headers: the capture time, the number and
    the classes of the layers, every other layer, every other field of the
    IP, UDP and DNS layers (the counts and the questions included) and
    every other record are those of the input packet. *)
Theorem modified_packet_frame (new_ip : string) (p q : Packet) :
  process_packet new_ip p = Ok (q, true) -> packet_frame new_ip p q.
Proof.
  intros Hp. apply process_packet_flag in Hp as [-> _].
  split; [reflexivity|]. apply modified_packet_frame_layers.
Qed.

Lemma modified_packet_frame_witness :
  packet_frame "00.37.76.90" pkt_answer (modified_packet "00.37.76.90" pkt_answer).
Proof.
  apply (modified_packet_frame "00.37.76.90" pkt_answer). reflexivity.
Defined.

(** ** The output sequence *)

(** C6.  When the run produces its output, the output has as many packets
    as the input, and packet [N] of the output is what the loop body
    appended for packet [N] of the input; it has its capture time. *)
Theorem output_in_input_order (pkts out : list Packet) :
  modify_pkts pkts = Ok out ->
  length out = length pkts /\
  forall N p, pkts !! N = Some p ->
    exists q, out !! N = Some q /\
              processed (convert_sciper_to_ip SCIPER) p q /\ time q = time p.
Proof.
  intros Hrun. apply modify_pkts_Ok in Hrun. split.
  - symmetry. now apply Forall2_length in Hrun.
  - intros N p HN.
    destruct (Forall2_lookup_l _ _ _ _ _ Hrun HN) as (q & Hq & m & Hproc).
    exists q. split; [assumption|]. split; [now exists m|].
    now apply process_packet_time in Hproc.
Qed.

Lemma output_in_input_order_witness :
  length [pkt_query; modified_packet "00.37.76.90" pkt_answer; pkt_plain]
  = length [pkt_query; pkt_answer; pkt_plain] /\
  forall N p, [pkt_query; pkt_answer; pkt_plain] !! N = Some p ->
    exists q, [pkt_query; modified_packet "00.37.76.90" pkt_answer; pkt_plain] !! N = Some q /\
              processed (convert_sciper_to_ip SCIPER) p q /\ time q = time p.
Proof.
  apply (output_in_input_order [pkt_query; pkt_answer; pkt_plain]).
  reflexivity.
Defined.

(** ** Running the rewriter on its own output *)

(** C7.  A capture file is the sequence of the frames of its packets.
    Suppose that every packet of the first output, read back from the
    frame it was written to, agrees with the packet written on everything
    the modification does not overwrite, and that writing it again gives
    the same frame.  Then a second run, on the file the first run wrote,
    succeeds and writes the same file, frame for frame. *)
Theorem rewriter_idempotent_on_files {Frame : Type}
    (build : Packet -> Frame) (dissect : Frame -> Packet)
    (pkts out : list Packet) :
  modify_pkts pkts = Ok out ->
  (forall q, q ∈ out ->
     modified_packet (convert_sciper_to_ip SCIPER) (dissect (build q))
     = modified_packet (convert_sciper_to_ip SCIPER) q) ->
  (forall q, q ∈ out -> build (dissect (build q)) = build q) ->
  exists out2,
    modify_pkts (map dissect (map build out)) = Ok out2 /\
    map build out2 = map build out.
Proof.
  intros Hrun Hread Hwrite. apply modify_pkts_Ok in Hrun.
  enough (exists out2,
             Forall2 (processed (convert_sciper_to_ip SCIPER))
                     (map dissect (map build out)) out2 /\
             map build out2 = map build out)
    as (out2 & H1 & H2) by (exists out2; split; [now apply modify_pkts_Ok | exact H2]).
  induction Hrun as [|p q pkts out [m Hp] _ IH].
  - exists []. split; [constructor | reflexivity].
  - destruct IH as (out2 & IH1 & IH2).
    { intros q' Hq'. apply Hread. now apply list_elem_of_further. }
    { intros q' Hq'. apply Hwrite. now apply list_elem_of_further. }
    pose proof (process_packet_reread _ p q (dissect (build q)) m Hp
                  (Hread q (list_elem_of_here _ _))) as Hr.
    exists ((if m then q else dissect (build q)) :: out2). split.
    + cbn [map]. constructor; [now exists m | exact IH1].
    + cbn [map]. f_equal; [|exact IH2].
      destruct m; [reflexivity | apply Hwrite, list_elem_of_here].
Qed.

Lemma rewriter_idempotent_on_files_witness :
  exists out2,
    modify_pkts (map (fun q : Packet => q)
                   (map (fun q : Packet => q)
                      [pkt_query; modified_packet "00.37.76.90" pkt_answer; pkt_plain]))
    = Ok out2 /\
    map (fun q : Packet => q) out2
    = map (fun q : Packet => q)
        [pkt_query; modified_packet "00.37.76.90" pkt_answer; pkt_plain].
Proof.
  apply (rewriter_idempotent_on_files (fun q : Packet => q) (fun q : Packet => q)
           [pkt_query; pkt_answer; pkt_plain]);
    [reflexivity | intros q _; reflexivity | intros q _; reflexivity].
Defined.

(** ** The whole run *)

(** C9.  An exception of [rdpcap] ends the run with that exception and
    the file system as it was, and so does an exception of the loop.
    Every run either ends with [wrpcap] having written, to the output
    path, one packet per packet read, each what the loop body appends for
    the packet at its index, or ends with an exception and the file
    system as it was. *)
Theorem modify_pcap_all_or_nothing (World : Type)
    (rdpcap : string -> World -> result (list Packet))
    (wrpcap : string -> list Packet -> World -> result World)
    (input_pcap_file output_pcap_file : string) (w : World) :
  (forall e, rdpcap input_pcap_file w = Raise e ->
     modify_pcap World rdpcap wrpcap input_pcap_file output_pcap_file w = (w, Raise e)) /\
  (forall pkts e, rdpcap input_pcap_file w = Ok pkts -> modify_pkts pkts = Raise e ->
     modify_pcap World rdpcap wrpcap input_pcap_file output_pcap_file w = (w, Raise e)) /\
  (forall w' r,
     modify_pcap World rdpcap wrpcap input_pcap_file output_pcap_file w = (w', r) ->
     (exists pkts out,
         r = Ok tt /\ rdpcap input_pcap_file w = Ok pkts /\
         wrpcap output_pcap_file out w = Ok w' /\
         length out = length pkts /\
         Forall2 (processed (convert_sciper_to_ip SCIPER)) pkts out) \/
     (exists e, r = Raise e /\ w' = w)).
Proof.
  unfold modify_pcap. split; [|split].
  - now intros e ->.
  - now intros pkts e -> ->.
  - intros w' r.
    destruct (rdpcap input_pcap_file w) as [pkts|e]; [|intros [= <- <-]; eauto].
    destruct (modify_pkts pkts) as [out|e] eqn:Hrun; [|intros [= <- <-]; eauto].
    destruct (wrpcap output_pcap_file out w) as [w2|e] eqn:Hw; intros [= <- <-]; [|eauto].
    left. exists pkts, out. apply modify_pkts_Ok in Hrun.
    repeat split; try assumption. symmetry. now apply Forall2_length in Hrun.
Qed.

Lemma modify_pcap_all_or_nothing_witness :
  modify_pcap (gmap string FileData) rdpcap_fs wrpcap_fs "in.pcap" "out.pcap"
    {["in.pcap" := NotCapture [1; 2; 3]]}
  = ({["in.pcap" := NotCapture [1; 2; 3]]}, Raise (Scapy_Exception "in.pcap")).
Proof.
  apply (modify_pcap_all_or_nothing (gmap string FileData) rdpcap_fs wrpcap_fs
           "in.pcap" "out.pcap" {["in.pcap" := NotCapture [1; 2; 3]]}).
  reflexivity.
Defined.

(** Four runs on the file system of the examples: a missing input, a
    capture that is rewritten, a capture with a response that declares
    more answers than it carries, and an output path that cannot be
    written. *)
Example run_missing_input :
  modify_pcap (gmap string FileData) rdpcap_fs wrpcap_fs "in.pcap" "out.pcap" ∅
  = (∅, Raise (OSError "in.pcap")).
Proof. reflexivity. Qed.

Example run_rewrites :
  modify_pcap (gmap string FileData) rdpcap_fs wrpcap_fs "in.pcap" "out.pcap"
    {["in.pcap" := Capture [pkt_query; pkt_answer; pkt_plain]]}
  = (<["out.pcap" := Capture [pkt_query; modified_packet "00.37.76.90" pkt_answer; pkt_plain]]>
       {["in.pcap" := Capture [pkt_query; pkt_answer; pkt_plain]]},
     Ok tt).
Proof. reflexivity. Qed.

Example run_short_section :
  modify_pcap (gmap string FileData) rdpcap_fs wrpcap_fs "in.pcap" "out.pcap"
    {["in.pcap" := Capture [pkt_answer; pkt_short; pkt_plain]]}
  = ({["in.pcap" := Capture [pkt_answer; pkt_short; pkt_plain]]}, Raise IndexError).
Proof. reflexivity. Qed.

Example run_unwritable_output :
  modify_pcap (gmap string FileData) rdpcap_fs wrpcap_fs "in.pcap" ""
    {["in.pcap" := Capture [pkt_answer]]}
  = ({["in.pcap" := Capture [pkt_answer]]}, Raise (OSError "")).
Proof. reflexivity. Qed.

(** * Further properties *)

(** ** The address derivation *)

Lemma append_String (a : ascii) (s t : string) :
  String a s +:+ t = String a (s +:+ t).
Proof. reflexivity. Qed.

Lemma append_Empty (t : string) : EmptyString +:+ t = t.
Proof. reflexivity. Qed.

Lemma chunk_pairs_nil (s : string) : chunk_pairs s = [] -> s = EmptyString.
Proof. destruct s as [|a [|b s]]; [reflexivity | discriminate..]. Qed.

Lemma concat_dot_cons (c : string) (cs : list string) :
  cs <> [] -> String.concat "." (c :: cs) = c +:+ "." +:+ String.concat "." cs.
Proof. destruct cs; [congruence | reflexivity]. Qed.

Lemma drop_thirds_chunks (s : string) :
  drop_thirds (String.concat "." (chunk_pairs s)) = s.
Proof.
  induction s as [| a | a b s IH] using string_pair_ind; [reflexivity..|].
  cbn [chunk_pairs].
  destruct (chunk_pairs s) as [|c cs] eqn:E.
  - apply chunk_pairs_nil in E as ->. reflexivity.
  - rewrite concat_dot_cons by discriminate.
    rewrite !append_String, !append_Empty. cbn [drop_thirds]. now rewrite IH.
Qed.

Lemma append_length (a b : string) :
  String.length (a +:+ b) = (String.length a + String.length b)%nat.
Proof.
  induction a as [|c a IH]; [reflexivity|].
  rewrite append_String. cbn [String.length]. now rewrite IH.
Qed.

Lemma chunks_joined_length (s : string) :
  String.length (String.concat "." (chunk_pairs s))
  = (String.length s + ((String.length s + 1) / 2 - 1))%nat.
Proof.
  induction s as [| a | a b s IH] using string_pair_ind; [reflexivity..|].
  cbn [chunk_pairs].
  destruct (chunk_pairs s) as [|c cs] eqn:E.
  - apply chunk_pairs_nil in E as ->. reflexivity.
  - rewrite concat_dot_cons by discriminate.
    rewrite !append_length, IH. cbn [String.length].
    assert (Hpos : (1 <= (String.length s + 1) / 2)%nat).
    { rewrite <- chunk_pairs_length, E. cbn. lia. }
    replace (S (S (String.length s)) + 1)%nat
      with ((String.length s + 1) + 1 * 2)%nat by lia.
    rewrite Nat.div_add by lia. lia.
Qed.

(** X1.  Two identifiers with the same derived address are the same
    identifier: the identifier is read back from the address by dropping
    the [00.] and every third character after it. *)
Theorem convert_sciper_to_ip_injective (s t : string) :
  convert_sciper_to_ip s = convert_sciper_to_ip t -> s = t.
Proof.
  rewrite !convert_sciper_to_ip_derive. unfold derive_address.
  rewrite !append_String, !append_Empty. intros [= H].
  apply (f_equal drop_thirds) in H.
  now rewrite !drop_thirds_chunks in H.
Qed.

Lemma convert_sciper_to_ip_injective_witness : "12345" = "12345".
Proof.
  apply (convert_sciper_to_ip_injective "12345" "12345"). reflexivity.
Defined.

Lemma count_char_append (c : ascii) (a b : string) :
  count_char c (a +:+ b) = (count_char c a + count_char c b)%nat.
Proof.
  induction a as [|x a IH]; [reflexivity|].
  rewrite append_String. cbn [count_char]. rewrite IH. lia.
Qed.

Lemma chunks_joined_dots (s : string) :
  count_char "." (String.concat "." (chunk_pairs s))
  = (count_char "." s + ((String.length s + 1) / 2 - 1))%nat.
Proof.
  induction s as [| a | a b s IH] using string_pair_ind.
  - reflexivity.
  - cbn. lia.
  - cbn [chunk_pairs].
    destruct (chunk_pairs s) as [|c cs] eqn:E.
    + apply chunk_pairs_nil in E as ->. cbn. lia.
    + rewrite concat_dot_cons by discriminate.
      rewrite !count_char_append, IH. cbn [String.length count_char].
      assert (Hpos : (1 <= (String.length s + 1) / 2)%nat).
      { rewrite <- chunk_pairs_length, E. cbn. lia. }
      replace (S (S (String.length s)) + 1)%nat
        with ((String.length s + 1) + 1 * 2)%nat by lia.
      rewrite Nat.div_add by lia. rewrite Ascii.eqb_refl.
      destruct (Ascii.eqb a "."), (Ascii.eqb b "."); lia.
Qed.

(** X2.  The derived address of an identifier of [n] characters has
    [2 + n + max(1, ceil(n/2))] characters, and [max(1, ceil(n/2))] dots
    besides the dots of the identifier: the dot after the [00] and one
    between two chunks.  For the empty identifier this is the bare [00.],
    of 3 characters and 1 dot.  So the address of an identifier without
    dot has the three dots of an IPv4 address exactly when the identifier
    has 5 or 6 characters. *)
Theorem convert_sciper_to_ip_shape (s : string) :
  String.length (convert_sciper_to_ip s)
  = (2 + String.length s + Nat.max 1 ((String.length s + 1) / 2))%nat /\
  count_char "." (convert_sciper_to_ip s)
  = (count_char "." s + Nat.max 1 ((String.length s + 1) / 2))%nat /\
  (count_char "." s = 0%nat ->
   count_char "." (convert_sciper_to_ip s) = 3%nat <->
   (5 <= String.length s <= 6)%nat).
Proof.
  rewrite convert_sciper_to_ip_derive. unfold derive_address.
  rewrite append_length, chunks_joined_length, count_char_append, chunks_joined_dots.
  cbn [String.length]. change (count_char "." "00.") with 1%nat.
  pose proof (Nat.div_mod_eq (String.length s + 1) 2) as Hd.
  pose proof (Nat.mod_upper_bound (String.length s + 1) 2) as Hm.
  split; [lia|]. split; [lia|].
  intros ->. lia.
Qed.

(** ** The record rewriter *)

(** X3.  When [fix_section] returns, the declared count did not exceed
    the number of records of the section, the section has its length, and
    the flag is set if and only if it was set on entry or the section has
    an A record below the count: the loop never clears it.  With a count
    of zero or less it returns the section and the flag as they were. *)
Theorem fix_section_returns
    (new_ip : string) (section : list DNSRR) (count : Z) (modified : bool) :
  (forall section' modified',
     fix_section new_ip section count modified = Ok (section', modified') ->
     count <= Z.of_nat (length section) /\
     length section' = length section /\
     (modified' = true <-> modified = true \/ A_within count section)) /\
  (count <= 0 -> fix_section new_ip section count modified = Ok (section, modified)).
Proof.
  destruct (in_range count section) eqn:E.
  - rewrite (fix_section_ok _ _ _ _ E).
    apply Z.leb_le in E. split.
    + intros section' modified' [= <- <-].
      split; [exact E|]. split; [apply rewritten_length|].
      now rewrite orb_true_iff, has_A_spec.
    + intros H. unfold rewritten, has_A.
      replace (Z.to_nat count) with 0%nat by lia.
      cbn. now rewrite orb_false_r.
  - rewrite (fix_section_raise _ _ _ _ E).
    apply Z.leb_gt in E. split; [discriminate | lia].
Qed.

(** ** The loop over the packets *)

Lemma packet_in_range_spec (p : Packet) :
  packet_in_range p = true <-> counts_in_range p.
Proof.
  unfold packet_in_range, counts_in_range, dns_in_range, in_range.
  destruct (getlayer as_DNS (layers p)) as [dns|]; [|split; [discriminate | reflexivity]].
  destruct (qr dns =? 1) eqn:Hqr.
  - rewrite !andb_true_iff, !Z.leb_le. split.
    + intros H dns' [= <-] _. tauto.
    + intros H. apply Z.eqb_eq in Hqr. specialize (H dns eq_refl Hqr). tauto.
  - apply Z.eqb_neq in Hqr. split; [|reflexivity].
    intros _ dns' [= <-] Hqr'. contradiction.
Qed.

Lemma processed_in_range (new_ip : string) (p q : Packet) :
  processed new_ip p q -> packet_in_range p = true.
Proof.
  intros [m H]. destruct (packet_in_range p) eqn:E; [reflexivity|].
  exfalso. revert H E. unfold packet_in_range. rewrite process_packet_eq.
  destruct (getlayer as_DNS (layers p)) as [dns|]; [|discriminate].
  destruct (qr dns =? 1); [|discriminate].
  intros H E. rewrite E in H. discriminate H.
Qed.

(** X4.  When the loop of [modify_pcap] returns its list of packets,
    every packet with a DNS layer whose [qr] is 1 declares, in each of the
    three sections, at most as many records as the section holds: one
    response that declares more stops the run, and no list is returned. *)
Theorem modify_pkts_returns_in_range (pkts out : list Packet) :
  modify_pkts pkts = Ok out ->
  forall p, p ∈ pkts -> counts_in_range p.
Proof.
  intros Hout p Hin. apply modify_pkts_Ok in Hout.
  apply list_elem_of_lookup in Hin as [i Hi].
  destruct (Forall2_lookup_l _ _ _ _ _ Hout Hi) as (q & _ & Hq).
  eapply packet_in_range_spec, processed_in_range, Hq.
Qed.

Lemma modify_pkts_returns_in_range_witness : counts_in_range pkt_answer.
Proof.
  apply (modify_pkts_returns_in_range [pkt_query; pkt_answer; pkt_plain]
           [pkt_query; modified_packet "00.37.76.90" pkt_answer; pkt_plain]);
    [reflexivity|].
  apply list_elem_of_further, list_elem_of_here.
Defined.

(** ** Running the loop again *)

Lemma visit_absorb (ip1 ip2 : string) (count : Z) (i : nat) (rr : DNSRR) :
  visit ip2 count i (visit ip1 count i rr) = visit ip2 count i rr.
Proof.
  unfold visit.
  destruct ((Z.of_nat i <? count) && (type rr =? 1)) eqn:E; [|now rewrite E].
  cbn [set_rdata type]. now rewrite E.
Qed.

Lemma rewritten_absorb (ip1 ip2 : string) (count : Z) (section : list DNSRR) :
  rewritten ip2 count (rewritten ip1 count section) = rewritten ip2 count section.
Proof.
  apply list_eq; intros i. rewrite !rewritten_lookup.
  destruct (section !! i) as [rr|]; [cbn|reflexivity].
  now rewrite visit_absorb.
Qed.

Lemma dns_rewritten_absorb (ip1 ip2 : string) (dns : DNS) :
  dns_rewritten ip2 (dns_rewritten ip1 dns) = dns_rewritten ip2 dns.
Proof. unfold dns_rewritten. cbn. now rewrite !rewritten_absorb. Qed.

Lemma modified_packet_absorb (ip1 ip2 : string) (p : Packet) :
  modified_packet ip2 (modified_packet ip1 p) = modified_packet ip2 p.
Proof.
  unfold modified_packet. cbn [time layers]. f_equal.
  rewrite del_layers_upd_DNS, del_layers_idem. f_equal.
  rewrite (updlayer_updlayer as_DNS L_DNS) by layer_cases.
  apply updlayer_ext. intros d. apply dns_rewritten_absorb.
Qed.

Lemma process_packet_again (ip1 ip2 : string) (p q : Packet) (m : bool) :
  process_packet ip1 p = Ok (q, m) ->
  process_packet ip2 q = process_packet ip2 p.
Proof.
  intros Hp. destruct (process_packet_flag _ _ _ _ Hp) as (-> & Ht & _).
  destruct m; [|reflexivity].
  destruct (Ht eq_refl) as (dns & Hd & Hqr & Hrange & HA).
  rewrite !process_packet_eq, modified_packet_DNS, Hd. cbn [option_map].
  change (qr (dns_rewritten ip1 dns)) with (qr dns).
  rewrite dns_in_range_rewritten, dns_has_A_rewritten.
  rewrite (proj2 (Z.eqb_eq _ _) Hqr), Hrange, HA.
  now rewrite modified_packet_absorb.
Qed.

Lemma modify_loop_again (ip1 ip2 : string) (pkts out : list Packet) :
  Forall2 (processed ip1) pkts out ->
  forall new_pkts, modify_loop ip2 out new_pkts = modify_loop ip2 pkts new_pkts.
Proof.
  induction 1 as [|p q pkts out [m Hp] _ IH]; intros new_pkts; [reflexivity|].
  cbn [modify_loop]. rewrite (process_packet_again ip1 ip2 p q m Hp).
  destruct (process_packet ip2 p) as [[q' m']|e]; [|reflexivity].
  cbn [bind]. apply IH.
Qed.

(** X5.  The loop run with one target address on the packets that a run
    with another target address returned gives what it gives on the
    packets of that first run: the last address wins and nothing of the
    first one is left.  With the same address, the second run returns the
    packets it was given; a modified packet is modified again, to
    itself. *)
Theorem modify_loop_last_address_wins (ip1 ip2 : string) (pkts out : list Packet) :
  modify_loop ip1 pkts [] = Ok out ->
  modify_loop ip2 out [] = modify_loop ip2 pkts [] /\
  modify_loop ip1 out [] = Ok out.
Proof.
  intros Hrun.
  destruct (modify_loop_Ok _ _ _ _ Hrun) as (out' & Hout & HF).
  cbn [app] in Hout. subst out'.
  split; [now apply modify_loop_again with ip1|].
  now rewrite (modify_loop_again ip1 ip1 pkts out HF).
Qed.

Lemma modify_loop_last_address_wins_witness :
  modify_loop "10.0.0.9" [pkt_query; modified_packet "00.37.76.90" pkt_answer] []
  = modify_loop "10.0.0.9" [pkt_query; pkt_answer] [] /\
  modify_loop "00.37.76.90" [pkt_query; modified_packet "00.37.76.90" pkt_answer] []
  = Ok [pkt_query; modified_packet "00.37.76.90" pkt_answer].
Proof.
  apply (modify_loop_last_address_wins "00.37.76.90" "10.0.0.9" [pkt_query; pkt_answer]).
  reflexivity.
Defined.

(** ** Packets are processed one by one *)

Lemma modify_loop_app (new_ip : string) (pkts1 pkts2 : list Packet) :
  forall new_pkts,
    modify_loop new_ip (pkts1 ++ pkts2) new_pkts
    = bind (modify_loop new_ip pkts1 new_pkts) (modify_loop new_ip pkts2).
Proof.
  induction pkts1 as [|p pkts1 IH]; intros new_pkts; [reflexivity|].
  cbn [app modify_loop].
  destruct (process_packet new_ip p) as [[q m]|e]; [|reflexivity].
  cbn [bind]. apply IH.
Qed.

Lemma modify_loop_acc (new_ip : string) (pkts : list Packet) :
  forall new_pkts,
    modify_loop new_ip pkts new_pkts
    = bind (modify_loop new_ip pkts []) (fun out => Ok (new_pkts ++ out)).
Proof.
  induction pkts as [|p pkts IH]; intros new_pkts.
  - cbn. now rewrite app_nil_r.
  - cbn [modify_loop].
    destruct (process_packet new_ip p) as [[q m]|e]; [|reflexivity].
    cbn [bind]. rewrite (IH (new_pkts ++ [q])), (IH ([] ++ [q])).
    destruct (modify_loop new_ip pkts []) as [out|e]; [|reflexivity].
    cbn [bind app]. now rewrite <- app_assoc.
Qed.

(** X6.  The loop treats each packet on its own: on a capture made of two
    parts it returns the packets returned for the first part followed by
    those returned for the second, and it raises when the loop raises on
    one of the parts.  In particular the flag of one packet does not reach
    the next one. *)
Theorem modify_pkts_app (pkts1 pkts2 : list Packet) :
  modify_pkts (pkts1 ++ pkts2)
  = bind (modify_pkts pkts1) (fun out1 =>
    bind (modify_pkts pkts2) (fun out2 => Ok (out1 ++ out2))).
Proof.
  unfold modify_pkts. rewrite modify_loop_app.
  destruct (modify_loop _ pkts1 []) as [out1|e]; [|reflexivity].
  cbn [bind]. apply modify_loop_acc.
Qed.
